(** * Galaxy client: broadcast store, data providers, workflow editor toolbar,
      tool panel and filter definitions

    A shallow embedding of the client-side logic of the Galaxy web client and
    the properties its specification states about it.

    - [Async]: a small monad for [async] functions: synchronous state updates,
      one suspension per [await], rejections and [try]/[catch].
    - [Broadcasts]: the pinia store [broadcastsStore].
    - [Providers]: [SimpleProviderMixin] and [StoreProvider].
    - [EditorOptions]: [onSave] of [Workflow/Editor/Options.vue].
    - [Filtering]: the filter definitions of the history panel and of the list
      of pages.
    - [StoreBehaviour], [ProviderBehaviour], [ToolbarBehaviour], [ToolPanel],
      [PageList]: further behaviour of the store, the providers, the toolbar,
      the tool panel and the list of pages. *)

From Stdlib Require Import ZArith Lia.
From stdpp Require Import gmap strings list fin_maps sorting.

Local Open Scope Z_scope.
Local Open Scope string_scope.

(* ===================================================================== *)
(** * Async functions *)
(* ===================================================================== *)

Module Async.

Section Async.
Context {St Req Resp Err : Type}.

(** The body of an [async] function over a component state [St].  It runs
    synchronously up to an [await]; there it hands the awaited request to the
    environment and suspends.  The continuation of [Await] receives the
    settled promise: [inl] a response, [inr] the rejection reason. *)
Inductive async (A : Type) : Type :=
| Ret (a : A)
| Throw (e : Err)
| Get (k : St → async A)
| Put (s : St) (k : async A)
| Await (r : Req) (k : Resp + Err → async A).

#[global] Arguments Ret {A} a.
#[global] Arguments Throw {A} e.
#[global] Arguments Get {A} k.
#[global] Arguments Put {A} s k.
#[global] Arguments Await {A} r k.

Fixpoint bind {A B} (m : async A) (f : A → async B) : async B :=
  match m with
  | Ret a => f a
  | Throw e => Throw e
  | Get k => Get (λ s, bind (k s) f)
  | Put s k => Put s (bind k f)
  | Await r k => Await r (λ res, bind (k res) f)
  end.

(** [this.field = v]: a synchronous assignment to the component state. *)
Definition modify (f : St → St) : async unit :=
  Get (λ s, Put (f s) (Ret tt)).

(** [await p] outside of any [try]: a rejection of [p] is thrown at the
    suspension point. *)
Definition await (r : Req) : async Resp :=
  Await r (λ res, match res with inl x => Ret x | inr e => Throw e end).

(** [try { body } catch (e) { handler e }]. *)
Fixpoint try_catch {A} (body : async A) (handler : Err → async A) : async A :=
  match body with
  | Ret a => Ret a
  | Throw e => handler e
  | Get k => Get (λ s, try_catch (k s) handler)
  | Put s k => Put s (try_catch k handler)
  | Await r k => Await r (λ res, try_catch (k res) handler)
  end.

(** [p.finally(g)]: [g] runs however the body settles, and the settlement of
    the body is passed on. *)
Fixpoint finally {A} (body : async A) (g : async unit) : async A :=
  match body with
  | Ret a => bind g (λ _, Ret a)
  | Throw e => bind g (λ _, Throw e)
  | Get k => Get (λ s, finally (k s) g)
  | Put s k => Put s (finally k g)
  | Await r k => Await r (λ res, finally (k res) g)
  end.

(** What a call of an async function has come to: its promise is fulfilled,
    rejected, or the function is suspended on a request. *)
Inductive outcome (A : Type) : Type :=
| Fulfilled (a : A)
| Rejected (e : Err)
| Pending (r : Req) (k : Resp + Err → async A).

#[global] Arguments Fulfilled {A} a.
#[global] Arguments Rejected {A} e.
#[global] Arguments Pending {A} r k.

(** Run synchronously from state [s] up to the next suspension. *)
Fixpoint run {A} (m : async A) (s : St) : St * outcome A :=
  match m with
  | Ret a => (s, Fulfilled a)
  | Throw e => (s, Rejected e)
  | Get k => run (k s) s
  | Put s' k => run k s'
  | Await r k => (s, Pending r k)
  end.

(** The awaited promise settles with [res]; the function continues from the
    state [s] the component is in by then. *)
Definition resume {A} (o : outcome A) (res : Resp + Err) (s : St) : St * outcome A :=
  match o with
  | Pending _ k => run (k res) s
  | _ => (s, o)
  end.

(** A call whose first awaited promise settles with [res] before anything
    else touches the state. *)
Definition run_settled {A} (m : async A) (res : Resp + Err) (s : St) : St * outcome A :=
  let '(s1, o) := run m s in resume o res s1.

(** The request an outcome is suspended on. *)
Definition awaiting {A} (o : outcome A) : option Req :=
  match o with
  | Pending r _ => Some r
  | _ => None
  end.

(** The settlement of an outcome, forgetting the continuation. *)
Inductive settled (A : Type) : Type :=
| Resolves (a : A)
| Rejects (e : Err)
| Suspended (r : Req).

#[global] Arguments Resolves {A} a.
#[global] Arguments Rejects {A} e.
#[global] Arguments Suspended {A} r.

Definition settlement {A} (o : outcome A) : settled A :=
  match o with
  | Fulfilled a => Resolves a
  | Rejected e => Rejects e
  | Pending r _ => Suspended r
  end.

End Async.

#[global] Arguments async : clear implicits.
#[global] Arguments outcome : clear implicits.
#[global] Arguments settled : clear implicits.

#[global] Instance async_ret {St Req Resp Err} : MRet (async St Req Resp Err) :=
  λ A a, Ret a.
#[global] Instance async_bind {St Req Resp Err} : MBind (async St Req Resp Err) :=
  λ A B f m, bind m f.

End Async.

Import Async.

(* ===================================================================== *)
(** * The broadcast store ([stores/broadcastsStore]) *)
(* ===================================================================== *)

Module Broadcasts.

(** [BroadcastNotification], a response of the api: the fields the store
    reads, and the rest of the response as [content].  [expiration_time] may
    be missing ([None] for [undefined] and [null]). *)
Record BroadcastNotification : Type := {
  id : string;
  expiration_time : option string;
  create_time : string;
  content : string;
}.

(** [type Expirable = Pick<BroadcastNotification, "expiration_time">]. *)
Record Expirable : Type := { dismissed_expiration_time : option string }.

#[global] Instance BroadcastNotification_eq_dec : EqDecision BroadcastNotification.
Proof. solve_decision. Defined.
#[global] Instance Expirable_eq_dec : EqDecision Expirable.
Proof. solve_decision. Defined.

(** The refs of the store.  [dismissedBroadcasts] is the object kept in the
    user's local storage, keyed by broadcast id. *)
Record Store : Type := {
  broadcasts : list BroadcastNotification;
  loadingBroadcasts : bool;
  dismissedBroadcasts : gmap string Expirable;
}.

Definition set_broadcasts (l : list BroadcastNotification) (s : Store) : Store :=
  {| broadcasts := l;
     loadingBroadcasts := loadingBroadcasts s;
     dismissedBroadcasts := dismissedBroadcasts s |}.

Definition set_loadingBroadcasts (v : bool) (s : Store) : Store :=
  {| broadcasts := broadcasts s;
     loadingBroadcasts := v;
     dismissedBroadcasts := dismissedBroadcasts s |}.

Definition set_dismissedBroadcasts (m : gmap string Expirable) (s : Store) : Store :=
  {| broadcasts := broadcasts s;
     loadingBroadcasts := loadingBroadcasts s;
     dismissedBroadcasts := m |}.

(** [Array.prototype.filter], the callback also given the index [i] of its
    invocation. *)
Fixpoint Array_filter_from {A} (f : nat → A → bool) (i : nat) (l : list A) : list A :=
  match l with
  | [] => []
  | x :: l' =>
      if f i x then x :: Array_filter_from f (S i) l'
      else Array_filter_from f (S i) l'
  end.

(** ** The merge of [utils/utils] *)

(** Modelled from the spec: the order "create_time descending" of the
    merge, the sort of [utils/utils] missing: [a] comes before [b] when its
    [create_time] is not the smaller one. *)
Definition create_time_desc (a b : BroadcastNotification) : Prop :=
  String.le (create_time b) (create_time a).

#[global] Instance create_time_desc_dec : RelDecision create_time_desc.
Proof. intros a b. unfold create_time_desc. apply _. Defined.

(** Modelled from the spec: "deduplicated by id", the merge of [utils/utils]
    missing: one element per id; of several with the same id the last one,
    which is the incoming one, stays. *)
Fixpoint dedup_by_id (l : list BroadcastNotification) : list BroadcastNotification :=
  match l with
  | [] => []
  | b :: l' =>
      if bool_decide (id b ∈ id <$> l') then dedup_by_id l'
      else b :: dedup_by_id l'
  end.

(** Modelled from the spec: [mergeObjectListsById] of [utils/utils] is not
    among the sources.  The spec has the incoming list merged into the
    existing one, "merged by create_time descending, deduplicated by id". *)
Definition mergeObjectListsById_spec
    (original toMerge : list BroadcastNotification) : list BroadcastNotification :=
  merge_sort create_time_desc (dedup_by_id (original ++ toMerge)).

(** The only request of the store: [fetchAllBroadcasts()]. *)
Inductive Request : Type := FetchAllBroadcasts.

Section Store.

(** The time value of [new Date(s)] in milliseconds, [None] for an invalid
    date (whose time value is NaN). *)
Variable Date_parse : string → option Z.

(** [mergeObjectListsById(original, toMerge, "create_time", "desc")] of
    [utils/utils]; every call of the store passes this sort key and this
    direction. *)
Variable mergeObjectListsById :
  list BroadcastNotification → list BroadcastNotification → list BroadcastNotification.

(** The type of a rejection reason. *)
Variable Err : Type.

(** The names under which the object of the dismissals has a property that is
    no dismissal: those it inherits from [Object.prototype] ([constructor],
    [toString], [valueOf], [__proto__] and the like), and what the runtime
    puts on a reactive object.  Indexing the object with such a name gives a
    function or an object, which counts as true. *)
Variable inherited : string → bool.

(** [hasExpired(expirationTimeStr)], [now] being the reading of [new Date()].
    A missing or empty string has not expired; a comparison with an invalid
    date is false. *)
Definition hasExpired (now : Z) (expirationTimeStr : option string) : bool :=
  match expirationTimeStr with
  | None => false
  | Some "" => false
  | Some s =>
      match Date_parse (s +:+ "Z") with
      | Some expirationTime => bool_decide (expirationTime < now)
      | None => false
      end
  end.

(** [activeBroadcasts]: the broadcasts [b] for which
    [dismissedBroadcasts.value[b.id]] is falsy: no dismissal is stored under
    the id, and the object has no other property of that name either. *)
Definition activeBroadcasts (s : Store) : list BroadcastNotification :=
  filter (λ b, dismissedBroadcasts s !! id b = None ∧ inherited (id b) = false)
    (broadcasts s).

(** [loadBroadcasts()]. *)
Definition loadBroadcasts : async Store Request (list BroadcastNotification) Err unit :=
  modify (set_loadingBroadcasts true) ;;
  finally
    (data ← await FetchAllBroadcasts ;
     modify (set_broadcasts (mergeObjectListsById data [])))
    (modify (set_loadingBroadcasts false)).

(** [updateBroadcasts(broadcastList)]; [clock i] is the reading of
    [new Date()] in the filter callback's invocation number [i]. *)
Definition updateBroadcasts (clock : nat → Z)
    (broadcastList : list BroadcastNotification) (s : Store) : Store :=
  set_broadcasts
    (Array_filter_from
       (λ i b, negb (hasExpired (clock i) (expiration_time b))) 0%nat
       (mergeObjectListsById (broadcasts s) broadcastList))
    s.

(** [dismissBroadcast(broadcast)]. *)
Definition dismissBroadcast (broadcast : BroadcastNotification) (s : Store) : Store :=
  set_dismissedBroadcasts
    (<[id broadcast := {| dismissed_expiration_time := expiration_time broadcast |}]>
       (dismissedBroadcasts s))
    s.

(** [clearExpiredDismissedBroadcasts()]; [clock key] is the reading of
    [new Date()] when the loop is at [key].  Every value of the object is an
    [Expirable], as the type of the storage has it. *)
Definition clearExpiredDismissedBroadcasts (clock : string → Z) (s : Store) : Store :=
  set_dismissedBroadcasts
    (filter
       (λ kv, hasExpired (clock kv.1) (dismissed_expiration_time kv.2) = false)
       (dismissedBroadcasts s))
    s.

(** Setting up the store: the refs get their initial values,
    [dismissedBroadcasts] what local storage holds, and
    [clearExpiredDismissedBroadcasts()] runs once. *)
Definition useBroadcastsStore (stored : gmap string Expirable) (clock : string → Z) : Store :=
  clearExpiredDismissedBroadcasts clock
    {| broadcasts := []; loadingBroadcasts := false; dismissedBroadcasts := stored |}.

(** A call of [loadBroadcasts] whose request settles with [res] before
    anything else touches the store. *)
Definition loadBroadcasts_settled
    (res : list BroadcastNotification + Err) (s : Store) : Store * outcome Store Request (list BroadcastNotification) Err unit :=
  run_settled loadBroadcasts res s.

(** What happens to a store in the browser: a call of [loadBroadcasts]
    together with the settlement of its request, a call of
    [updateBroadcasts] or of [dismissBroadcast], and a reload of the page. *)
Inductive Action : Type :=
| Load (res : list BroadcastNotification + Err)
| Update (clock : nat → Z) (broadcastList : list BroadcastNotification)
| Dismiss (broadcast : BroadcastNotification)
| Reload (clock : string → Z).

(** [Reload]: the page is loaded again; the store is set up anew from what
    local storage holds. *)
Definition step (s : Store) (a : Action) : Store :=
  match a with
  | Load res => (loadBroadcasts_settled res s).1
  | Update clock l => updateBroadcasts clock l s
  | Dismiss b => dismissBroadcast b s
  | Reload clock => useBroadcastsStore (dismissedBroadcasts s) clock
  end.

Definition steps (s : Store) (tr : list Action) : Store := foldl step s tr.

(** The expiration time has passed at [now]: there is one, and the date it
    denotes (read as UTC) lies before [now]. *)
Definition passed (now : Z) (expirationTimeStr : option string) : Prop :=
  ∃ s expirationTime,
    expirationTimeStr = Some s ∧ s ≠ "" ∧
    Date_parse (s +:+ "Z") = Some expirationTime ∧ expirationTime < now.

(** An action that leaves the dismissal of [b] standing: a page reload
    before the expiration of [b] has passed, and no dismissal of a broadcast
    of the same id with another expiration time. *)
Definition keeps_dismissal (b : BroadcastNotification) (a : Action) : Prop :=
  match a with
  | Reload clock => ¬ passed (clock (id b)) (expiration_time b)
  | Dismiss b' => id b' = id b → expiration_time b' = expiration_time b
  | Load _ | Update _ _ => True
  end.

(** ** Properties *)

(** [hasExpired] decides [passed]. *)
Lemma hasExpired_true now e : hasExpired now e = true ↔ passed now e.
Proof.
  unfold hasExpired, passed. split.
  - destruct e as [s|]; [|done].
    destruct s as [|c s']; [done|].
    destruct (Date_parse _) as [t|] eqn:Hd; [|done].
    intros Hlt%bool_decide_eq_true. by exists (String c s'), t.
  - intros (s & t & -> & Hne & Hd & Hlt).
    destruct s as [|c s']; [done|].
    rewrite Hd. by apply bool_decide_eq_true.
Qed.

Lemma hasExpired_false now e : hasExpired now e = false ↔ ¬ passed now e.
Proof. rewrite <- hasExpired_true. by destruct (hasExpired now e). Qed.

Lemma passed_None now : ¬ passed now None.
Proof. by intros (s & t & ? & _). Qed.

Lemma passed_empty now : ¬ passed now (Some "").
Proof. intros (s & t & [= <-] & Hne & _). done. Qed.

(** Membership in a filtered array: the element sits at some index of the
    input and the callback accepted it there. *)
Lemma elem_of_Array_filter_from {A} (f : nat → A → bool) i (l : list A) x :
  x ∈ Array_filter_from f i l ↔ ∃ j, l !! j = Some x ∧ f (i + j)%nat x = true.
Proof.
  revert i. induction l as [|y l IH]; intros i; simpl.
  - split; [by intros ?%elem_of_nil | by intros (j & ? & _)].
  - destruct (f i y) eqn:Hf.
    + rewrite elem_of_cons, IH. split.
      * intros [->|(j & Hj & Hfj)].
        -- exists 0%nat. by rewrite Nat.add_0_r.
        -- exists (S j). by rewrite Nat.add_succ_r.
      * intros ([|j] & Hj & Hfj); simpl in Hj.
        -- left. congruence.
        -- right. exists j. by rewrite Nat.add_succ_r in Hfj.
    + rewrite IH. split.
      * intros (j & Hj & Hfj). exists (S j). by rewrite Nat.add_succ_r.
      * intros ([|j] & Hj & Hfj); simpl in Hj.
        -- rewrite Nat.add_0_r in Hfj. congruence.
        -- exists j. by rewrite Nat.add_succ_r in Hfj.
Qed.

Lemma elem_of_updateBroadcasts clock l s b :
  b ∈ broadcasts (updateBroadcasts clock l s) ↔
  ∃ i, mergeObjectListsById (broadcasts s) l !! i = Some b ∧
       ¬ passed (clock i) (expiration_time b).
Proof.
  unfold updateBroadcasts; simpl.
  rewrite elem_of_Array_filter_from. simpl.
  by setoid_rewrite negb_true_iff; setoid_rewrite hasExpired_false.
Qed.

Lemma lookup_clearExpiredDismissedBroadcasts clock s k e :
  dismissedBroadcasts (clearExpiredDismissedBroadcasts clock s) !! k = Some e ↔
  dismissedBroadcasts s !! k = Some e ∧ ¬ passed (clock k) (dismissed_expiration_time e).
Proof.
  unfold clearExpiredDismissedBroadcasts; simpl.
  rewrite map_lookup_filter_Some. simpl. by rewrite hasExpired_false.
Qed.

Lemma loadBroadcasts_settled_inl data s :
  loadBroadcasts_settled (inl data) s =
  (set_loadingBroadcasts false
     (set_broadcasts (mergeObjectListsById data []) (set_loadingBroadcasts true s)),
   Fulfilled tt).
Proof. reflexivity. Qed.

Lemma loadBroadcasts_settled_inr e s :
  loadBroadcasts_settled (inr e) s =
  (set_loadingBroadcasts false (set_loadingBroadcasts true s), Rejected e).
Proof. reflexivity. Qed.

Lemma dismissedBroadcasts_loadBroadcasts_settled res s :
  dismissedBroadcasts (loadBroadcasts_settled res s).1 = dismissedBroadcasts s.
Proof. by destruct res. Qed.

Lemma elem_of_activeBroadcasts s b :
  b ∈ activeBroadcasts s ↔
  b ∈ broadcasts s ∧ dismissedBroadcasts s !! id b = None ∧ inherited (id b) = false.
Proof. unfold activeBroadcasts. rewrite list_elem_of_filter. tauto. Qed.

(** The dismissal record of [b] stays where it is under an action that keeps
    it. *)
Lemma step_keeps_dismissal b s a :
  keeps_dismissal b a →
  dismissedBroadcasts s !! id b
    = Some {| dismissed_expiration_time := expiration_time b |} →
  dismissedBroadcasts (step s a) !! id b
    = Some {| dismissed_expiration_time := expiration_time b |}.
Proof.
  intros Hk Hs. destruct a as [res|clock l|b'|clock]; simpl in *.
  - by rewrite dismissedBroadcasts_loadBroadcasts_settled.
  - done.
  - destruct (decide (id b' = id b)) as [Heq|Hne].
    + rewrite Heq, lookup_insert_eq. by rewrite (Hk Heq).
    + by rewrite lookup_insert_ne.
  - apply map_lookup_filter_Some. split; [done|]. simpl.
    by apply hasExpired_false.
Qed.

Lemma steps_keep_dismissal b tr : ∀ s,
  Forall (keeps_dismissal b) tr →
  dismissedBroadcasts s !! id b
    = Some {| dismissed_expiration_time := expiration_time b |} →
  dismissedBroadcasts (steps s tr) !! id b
    = Some {| dismissed_expiration_time := expiration_time b |}.
Proof.
  induction tr as [|a tr IH]; intros s Hall Hs; [done|].
  inversion Hall as [|? ? Ha Htr]; subst. simpl.
  apply IH; [done|]. by apply step_keeps_dismissal.
Qed.

(** ** What the specification states about the store *)

(** C1. Whatever the store holds and whatever comes in, no broadcast of the
    list [updateBroadcasts] stores has an expiration time that has passed:
    each one sits in the merged list at an index at which the filter read a
    time the expiration time had not passed (it is missing, or not before
    that time). *)
Theorem updateBroadcasts_no_expired clock broadcastList s b :
  b ∈ broadcasts (updateBroadcasts clock broadcastList s) →
  ∃ i, mergeObjectListsById (broadcasts s) broadcastList !! i = Some b ∧
       hasExpired (clock i) (expiration_time b) = false ∧
       ¬ passed (clock i) (expiration_time b).
Proof.
  intros (i & Hi & Hnp)%elem_of_updateBroadcasts.
  exists i. split; [done|]. split; [|done]. by apply hasExpired_false.
Qed.

(** With one reading [now] of the time for the whole call: nothing in the
    stored list has passed at [now]. *)
Corollary updateBroadcasts_no_expired_now now broadcastList s :
  Forall (λ b, ¬ passed now (expiration_time b))
    (broadcasts (updateBroadcasts (λ _, now) broadcastList s)).
Proof.
  apply Forall_forall. intros b Hb.
  by apply elem_of_updateBroadcasts in Hb as (i & _ & Hnp).
Qed.

(** C5. After [clearExpiredDismissedBroadcasts] the dismissal map holds
    exactly the records it held before whose expiration time has not passed,
    each unchanged; that is also the map of a store that has just been set
    up. *)
Theorem clearExpiredDismissedBroadcasts_purges clock s k e :
  (dismissedBroadcasts (clearExpiredDismissedBroadcasts clock s) !! k = Some e ↔
   dismissedBroadcasts s !! k = Some e ∧
   ¬ passed (clock k) (dismissed_expiration_time e)) ∧
  (dismissedBroadcasts (useBroadcastsStore (dismissedBroadcasts s) clock) !! k = Some e ↔
   dismissedBroadcasts s !! k = Some e ∧
   ¬ passed (clock k) (dismissed_expiration_time e)).
Proof.
  split; [apply lookup_clearExpiredDismissedBroadcasts|].
  unfold useBroadcastsStore. by rewrite lookup_clearExpiredDismissedBroadcasts.
Qed.

(** A record whose expiration time has passed is gone. *)
Lemma clearExpiredDismissedBroadcasts_gone clock s k e :
  dismissedBroadcasts s !! k = Some e →
  passed (clock k) (dismissed_expiration_time e) →
  dismissedBroadcasts (clearExpiredDismissedBroadcasts clock s) !! k = None.
Proof.
  intros Hk Hp. apply eq_None_not_Some. intros [e' He'].
  apply lookup_clearExpiredDismissedBroadcasts in He' as [He' Hnp]. naive_solver.
Qed.

(** C9. A missing or empty expiration time never counts as expired:
    [updateBroadcasts] keeps every such broadcast of the merged list and
    [clearExpiredDismissedBroadcasts] keeps every such dismissal record. *)
Theorem missing_expiration_never_expires clock_list clock_keys broadcastList s :
  (∀ now, hasExpired now None = false ∧ hasExpired now (Some "") = false) ∧
  (∀ b, b ∈ mergeObjectListsById (broadcasts s) broadcastList →
        expiration_time b = None ∨ expiration_time b = Some "" →
        b ∈ broadcasts (updateBroadcasts clock_list broadcastList s)) ∧
  (∀ k e, dismissedBroadcasts s !! k = Some e →
          dismissed_expiration_time e = None ∨ dismissed_expiration_time e = Some "" →
          dismissedBroadcasts (clearExpiredDismissedBroadcasts clock_keys s) !! k = Some e).
Proof.
  split; [done|]. split.
  - intros b [i Hi]%list_elem_of_lookup Hexp.
    apply elem_of_updateBroadcasts. exists i. split; [done|].
    destruct Hexp as [-> | ->]; [apply passed_None | apply passed_empty].
  - intros k e Hk Hexp. apply lookup_clearExpiredDismissedBroadcasts.
    split; [done|].
    destruct Hexp as [-> | ->]; [apply passed_None | apply passed_empty].
Qed.

(** C2, as the store has it.  [clearExpiredDismissedBroadcasts] runs when the
    store is set up, the list of broadcasts being empty: right after it
    nothing is active, so no broadcast whose expiration time has passed is.
    It takes away dismissal records only.  Of the broadcasts that
    [loadBroadcasts] fetches next, those are active under whose id the
    storage held no dismissal record, or one whose expiration time had
    passed at the set-up, and whose id names no other property of the
    object; the expiration time of the broadcast itself plays no part. *)
Theorem clearExpiredDismissedBroadcasts_active stored clock :
  broadcasts (useBroadcastsStore stored clock) = [] ∧
  activeBroadcasts (useBroadcastsStore stored clock) = [] ∧
  (∀ data b,
     b ∈ activeBroadcasts (step (useBroadcastsStore stored clock) (Load (inl data))) ↔
     b ∈ mergeObjectListsById data [] ∧
     inherited (id b) = false ∧
     ∀ e, stored !! id b = Some e →
          passed (clock (id b)) (dismissed_expiration_time e)).
Proof.
  split; [done|]. split; [done|].
  intros data b. rewrite elem_of_activeBroadcasts. simpl.
  assert (Hrecord :
    filter (λ kv, hasExpired (clock kv.1) (dismissed_expiration_time kv.2) = false)
      stored !! id b = None ↔
    ∀ e, stored !! id b = Some e →
         passed (clock (id b)) (dismissed_expiration_time e)).
  { rewrite eq_None_not_Some. split.
    - intros Hnone e He.
      destruct (hasExpired (clock (id b)) (dismissed_expiration_time e)) eqn:Hx.
      + by apply hasExpired_true.
      + exfalso. apply Hnone. exists e.
        apply map_lookup_filter_Some. split; [done|]. exact Hx.
    - intros Hall [e He].
      apply map_lookup_filter_Some in He as [He Hx]. simpl in Hx.
      apply hasExpired_false in Hx. by apply Hx, Hall. }
  rewrite Hrecord. tauto.
Qed.

(** C3. [dismissBroadcast b] stores the expiration time of [b] under its id.
    From then on, through loads and updates of the list, dismissals of
    other broadcasts and page reloads that happen before the expiration of
    [b] has passed, the record stays and no broadcast with the id of [b] is
    active.  A page reload after the expiration has passed removes the
    record. *)
Theorem dismissBroadcast_excludes b s tr :
  Forall (keeps_dismissal b) tr →
  let s' := steps (dismissBroadcast b s) tr in
  dismissedBroadcasts (dismissBroadcast b s) !! id b
    = Some {| dismissed_expiration_time := expiration_time b |} ∧
  dismissedBroadcasts s' !! id b
    = Some {| dismissed_expiration_time := expiration_time b |} ∧
  (∀ b', b' ∈ activeBroadcasts s' → id b' ≠ id b) ∧
  (∀ clock, passed (clock (id b)) (expiration_time b) →
            dismissedBroadcasts (step s' (Reload clock)) !! id b = None).
Proof.
  intros Hall s'.
  assert (Hd : dismissedBroadcasts (dismissBroadcast b s) !! id b
               = Some {| dismissed_expiration_time := expiration_time b |})
    by apply lookup_insert_eq.
  assert (Hs' : dismissedBroadcasts s' !! id b
               = Some {| dismissed_expiration_time := expiration_time b |})
    by by apply steps_keep_dismissal.
  repeat split; [done|done| |].
  - intros b' (_ & Hnone & _)%elem_of_activeBroadcasts Heq. congruence.
  - intros clock Hp. simpl. unfold useBroadcastsStore.
    by eapply clearExpiredDismissedBroadcasts_gone.
Qed.

End Store.

#[global] Arguments Load {Err} res.
#[global] Arguments Update {Err} clock broadcastList.
#[global] Arguments Dismiss {Err} broadcast.
#[global] Arguments Reload {Err} clock.
#[global] Arguments keeps_dismissal Date_parse {Err} b a.

(** ** The order of [create_time] *)

#[global] Instance create_time_desc_total : Total create_time_desc.
Proof. intros a b. apply (total String.le). Qed.

#[global] Instance create_time_desc_trans : Transitive create_time_desc.
Proof. intros a b c Hab Hbc. by apply (transitivity (R:=String.le) Hbc Hab). Qed.

(** ** What the merge of the spec yields *)

Lemma elem_of_dedup_by_id l b : b ∈ dedup_by_id l → b ∈ l.
Proof.
  induction l as [|x l IH]; simpl; [done|].
  case_bool_decide; rewrite ?elem_of_cons; [by right; apply IH|].
  intros [->|Hb]; [by left | by right; apply IH].
Qed.

Lemma dedup_by_id_ids l i : i ∈ id <$> dedup_by_id l ↔ i ∈ id <$> l.
Proof.
  induction l as [|x l IH]; simpl; [done|].
  case_bool_decide as Hx; simpl; rewrite ?elem_of_cons, IH; [|done].
  split; [by right|]. by intros [->|?].
Qed.

Lemma NoDup_dedup_by_id l : NoDup (id <$> dedup_by_id l).
Proof.
  induction l as [|x l IH]; simpl; [constructor|].
  case_bool_decide as Hx; [done|]. simpl.
  constructor; [by rewrite dedup_by_id_ids | done].
Qed.

Lemma mergeObjectListsById_spec_Permutation original toMerge :
  mergeObjectListsById_spec original toMerge ≡ₚ dedup_by_id (original ++ toMerge).
Proof. apply merge_sort_Permutation. Qed.

Lemma mergeObjectListsById_spec_sorted original toMerge :
  StronglySorted create_time_desc (mergeObjectListsById_spec original toMerge).
Proof. apply StronglySorted_merge_sort; apply _. Qed.

Lemma mergeObjectListsById_spec_NoDup original toMerge :
  NoDup (id <$> mergeObjectListsById_spec original toMerge).
Proof.
  rewrite mergeObjectListsById_spec_Permutation. apply NoDup_dedup_by_id.
Qed.

(** C4. A settled [loadBroadcasts] puts in place of the list of the store
    the merge of the fetched list with the empty list: by the merge of the
    spec, broadcasts of the fetched list only, one for each id fetched, no
    id twice, in descending order of [create_time].  What the list held
    before plays no part; the loading flag is down again. *)
Theorem loadBroadcasts_replaces (Err : Type) data s :
  let s' := (loadBroadcasts_settled mergeObjectListsById_spec Err (inl data) s).1 in
  broadcasts s' = mergeObjectListsById_spec data [] ∧
  StronglySorted create_time_desc (broadcasts s') ∧
  NoDup (id <$> broadcasts s') ∧
  (∀ b, b ∈ broadcasts s' ↔ b ∈ dedup_by_id data) ∧
  (∀ b, b ∈ broadcasts s' → b ∈ data) ∧
  (∀ b, b ∈ data → id b ∈ id <$> broadcasts s') ∧
  loadingBroadcasts s' = false ∧
  dismissedBroadcasts s' = dismissedBroadcasts s.
Proof.
  intros s'.
  assert (Hb : broadcasts s' = mergeObjectListsById_spec data []) by done.
  assert (Hin : ∀ b, b ∈ broadcasts s' ↔ b ∈ dedup_by_id data).
  { intros b. rewrite Hb, mergeObjectListsById_spec_Permutation.
    by rewrite app_nil_r. }
  split_and!; try done.
  - rewrite Hb. apply mergeObjectListsById_spec_sorted.
  - rewrite Hb. apply mergeObjectListsById_spec_NoDup.
  - intros b Hin'%Hin. by apply elem_of_dedup_by_id.
  - intros b Hdata. rewrite Hb, mergeObjectListsById_spec_Permutation, app_nil_r.
    apply dedup_by_id_ids. by apply list_elem_of_fmap_2.
Qed.


(** ** A store in the browser *)

(** The time values of the dates of the examples. *)
Definition example_Date_parse (s : string) : option Z :=
  if decide (s = "2023-01-01T00:00:00Z") then Some 1672531200000
  else if decide (s = "2030-01-01T00:00:00Z") then Some 1893456000000
  else None.

(** 2023-11-14T22:13:20Z. *)
Definition example_now : Z := 1700000000000.

Definition maintenance : BroadcastNotification :=
  {| id := "f2db41e1fa331b3e";
     expiration_time := Some "2023-01-01T00:00:00";
     create_time := "2022-12-01T00:00:00";
     content := "Maintenance on Saturday" |}.

Definition release : BroadcastNotification :=
  {| id := "f597429621d6eb2b";
     expiration_time := Some "2030-01-01T00:00:00";
     create_time := "2023-06-01T00:00:00";
     content := "New release" |}.

Definition welcome : BroadcastNotification :=
  {| id := "1cd8e2f6b131e891";
     expiration_time := None;
     create_time := "2021-01-01T00:00:00";
     content := "Welcome" |}.

(** The properties of [Object.prototype], and [__ob__], under which Vue keeps
    the observer of a reactive object. *)
Definition example_inherited (name : string) : bool :=
  bool_decide (name ∈ ["constructor"; "hasOwnProperty"; "isPrototypeOf";
                       "propertyIsEnumerable"; "toLocaleString"; "toString";
                       "valueOf"; "__proto__"; "__defineGetter__";
                       "__defineSetter__"; "__lookupGetter__";
                       "__lookupSetter__"; "__ob__"]).

Definition empty_store : Store :=
  {| broadcasts := []; loadingBroadcasts := false; dismissedBroadcasts := ∅ |}.

Example hasExpired_maintenance :
  hasExpired example_Date_parse example_now (expiration_time maintenance) = true.
Proof. reflexivity. Qed.

Example hasExpired_release :
  hasExpired example_Date_parse example_now (expiration_time release) = false.
Proof. reflexivity. Qed.

Example mergeObjectListsById_spec_example :
  mergeObjectListsById_spec [welcome; maintenance] [release; maintenance]
  = [release; maintenance; welcome].
Proof. vm_compute. reflexivity. Qed.

Example updateBroadcasts_example :
  broadcasts
    (updateBroadcasts example_Date_parse mergeObjectListsById_spec (λ _, example_now)
       [release; maintenance] (set_broadcasts [welcome] empty_store))
  = [release; welcome].
Proof. vm_compute. reflexivity. Qed.

Lemma updateBroadcasts_no_expired_witness :
  release ∈ broadcasts
    (updateBroadcasts example_Date_parse mergeObjectListsById_spec (λ _, example_now)
       [release; maintenance] (set_broadcasts [welcome] empty_store)) ∧
  ∃ i, mergeObjectListsById_spec [welcome] [release; maintenance] !! i = Some release ∧
       hasExpired example_Date_parse example_now (expiration_time release) = false ∧
       ¬ passed example_Date_parse example_now (expiration_time release).
Proof.
  assert (H : release ∈ broadcasts
    (updateBroadcasts example_Date_parse mergeObjectListsById_spec (λ _, example_now)
       [release; maintenance] (set_broadcasts [welcome] empty_store))).
  { rewrite updateBroadcasts_example. apply list_elem_of_here. }
  split; [exact H|].
  exact (updateBroadcasts_no_expired example_Date_parse mergeObjectListsById_spec
           (λ _, example_now) [release; maintenance]
           (set_broadcasts [welcome] empty_store) release H).
Defined.

(** The maintenance broadcast expired at the start of 2023.  The user had
    dismissed it; the page is loaded in November 2023 and the broadcasts are
    fetched.  Setting up the store has run [clearExpiredDismissedBroadcasts],
    which purged the dismissal record, and the expired broadcast is
    active. *)
Lemma expired_broadcast_active_after_clear :
  let dismissed : gmap string Expirable :=
    {[ id maintenance :=
         {| dismissed_expiration_time := expiration_time maintenance |} ]} in
  let s := steps example_Date_parse mergeObjectListsById_spec unit
             (set_dismissedBroadcasts dismissed empty_store)
             [Reload (λ _, example_now); Load (inl [maintenance])] in
  passed example_Date_parse example_now (expiration_time maintenance) ∧
  maintenance ∈ broadcasts s ∧
  maintenance ∈ activeBroadcasts example_inherited s.
Proof.
  intros dismissed s. split; [|split].
  - apply hasExpired_true. reflexivity.
  - assert (Hs : broadcasts s = [maintenance]) by (vm_compute; reflexivity).
    rewrite Hs. apply list_elem_of_here.
  - assert (Ha : activeBroadcasts example_inherited s = [maintenance])
      by (vm_compute; reflexivity).
    rewrite Ha. apply list_elem_of_here.
Qed.

Lemma missing_expiration_never_expires_witness :
  let s := dismissBroadcast welcome (set_broadcasts [welcome] empty_store) in
  (welcome ∈ mergeObjectListsById_spec (broadcasts s) [release; maintenance] ∧
   expiration_time welcome = None ∧
   welcome ∈ broadcasts
     (updateBroadcasts example_Date_parse mergeObjectListsById_spec
        (λ _, example_now) [release; maintenance] s)) ∧
  (dismissedBroadcasts s !! id welcome
     = Some {| dismissed_expiration_time := None |} ∧
   dismissedBroadcasts
     (clearExpiredDismissedBroadcasts example_Date_parse (λ _, example_now) s)
     !! id welcome = Some {| dismissed_expiration_time := None |}).
Proof.
  intros s.
  pose proof (missing_expiration_never_expires example_Date_parse
                mergeObjectListsById_spec (λ _, example_now) (λ _, example_now)
                [release; maintenance] s) as (_ & Hlist & Hkeys).
  assert (Hin : welcome ∈ mergeObjectListsById_spec (broadcasts s) [release; maintenance]).
  { rewrite mergeObjectListsById_spec_Permutation. vm_compute. set_solver. }
  assert (Hk : dismissedBroadcasts s !! id welcome
               = Some {| dismissed_expiration_time := None |})
    by apply lookup_insert_eq.
  split.
  - split; [exact Hin|]. split; [reflexivity|].
    exact (Hlist welcome Hin (or_introl eq_refl)).
  - split; [exact Hk|].
    exact (Hkeys (id welcome) _ Hk (or_introl eq_refl)).
Defined.

Lemma dismissBroadcast_excludes_witness :
  let tr := [Load (inl [release; maintenance]);
             Reload (λ _, example_now);
             Update (λ _, example_now) [release; welcome];
             Dismiss welcome] in
  let s' := steps example_Date_parse mergeObjectListsById_spec unit
              (dismissBroadcast release empty_store) tr in
  Forall (keeps_dismissal example_Date_parse release) tr ∧
  dismissedBroadcasts (dismissBroadcast release empty_store) !! id release
    = Some {| dismissed_expiration_time := expiration_time release |} ∧
  dismissedBroadcasts s' !! id release
    = Some {| dismissed_expiration_time := expiration_time release |} ∧
  (∀ b', b' ∈ activeBroadcasts example_inherited s' → id b' ≠ id release) ∧
  (∀ clock, passed example_Date_parse (clock (id release)) (expiration_time release) →
            dismissedBroadcasts
              (step example_Date_parse mergeObjectListsById_spec unit s' (Reload clock))
              !! id release = None).
Proof.
  intros tr s'.
  assert (Htr : Forall (keeps_dismissal example_Date_parse release) tr).
  { repeat constructor; simpl.
    - by apply hasExpired_false.
    - intros Hid. by vm_compute in Hid. }
  split; [exact Htr|].
  exact (dismissBroadcast_excludes example_Date_parse mergeObjectListsById_spec unit
           example_inherited release empty_store tr Htr).
Defined.

End Broadcasts.


(* ===================================================================== *)
(** * Data providers ([components/providers]) *)
(* ===================================================================== *)

Module Providers.

(** The requests of a provider: [axios.get(url)], [axios.put(url, newProps)]
    and, for a store provider, the dispatch of its store action. *)
Inductive Request (Item Attrs : Type) : Type :=
| GET (url : string)
| PUT (url : string) (newProps : Item)
| Dispatch (storeAction : string) (attributes : Attrs).

#[global] Arguments GET {Item Attrs} url.
#[global] Arguments PUT {Item Attrs} url newProps.
#[global] Arguments Dispatch {Item Attrs} storeAction attributes.

Section SimpleProvider.

(** What the api answers: the [data] of the response. *)
Variable Item : Type.
(** The type of a rejection reason. *)
Variable Err : Type.
(** The computed [url] of the component that mixes the provider in, as a
    function of its [id]. *)
Variable url : string → string.

(** The instance: the prop [id] and what [data()] declares. *)
Record SimpleProvider : Type := {
  id : string;
  loading : bool;
  item : option Item;
}.

Definition set_id (v : string) (c : SimpleProvider) : SimpleProvider :=
  {| id := v; loading := loading c; item := item c |}.
Definition set_loading (v : bool) (c : SimpleProvider) : SimpleProvider :=
  {| id := id c; loading := v; item := item c |}.
Definition set_item (v : option Item) (c : SimpleProvider) : SimpleProvider :=
  {| id := id c; loading := loading c; item := v |}.

(** [data()]. *)
Definition data (id_prop : string) : SimpleProvider :=
  {| id := id_prop; loading := false; item := None |}.

Abbreviation task := (async SimpleProvider (Request Item unit) Item Err unit).

(** [async load()]. *)
Definition load : task :=
  modify (set_loading true) ;;
  this ← Get Ret ;
  data ← await (GET (url (id this))) ;
  modify (set_item (Some data)) ;;
  modify (set_loading false).

(** [async save(newProps)]. *)
Definition save (newProps : Item) : task :=
  modify (set_loading true) ;;
  this ← Get Ret ;
  data ← await (PUT (url (id this)) newProps) ;
  modify (set_item (Some data)) ;;
  modify (set_loading false).

(** The handler of the watcher of [id]; [oldVal] is [None] for [undefined].
    The promise of [load] is not awaited: the task here is the call of
    [load], and nobody handles a rejection of it. *)
Definition handler (newVal : string) (oldVal : option string) : task :=
  if decide (Some newVal ≠ oldVal) then load else Ret tt.

(** The instance is created: the watcher is [immediate], so its handler runs
    at once, the old value being [undefined]. *)
Definition created (id_prop : string) : SimpleProvider * outcome SimpleProvider (Request Item unit) Item Err unit :=
  run (handler id_prop None) (data id_prop).

(** The parent sets the prop [id]: the prop takes the value and the watcher
    runs its handler when the value is another one than before. *)
Definition id_set (newVal : string) (c : SimpleProvider) : SimpleProvider * outcome SimpleProvider (Request Item unit) Item Err unit :=
  if decide (newVal = id c) then (c, Fulfilled tt)
  else run (handler newVal (Some (id c))) (set_id newVal c).

(** ** Properties *)

(** [load] runs up to its request with [loading] set; with the response it
    stores the data and clears [loading]; with a rejection it stops where it
    is and its promise is rejected. *)
Lemma run_load c :
  ∃ k, run load c = (set_loading true c, Pending (GET (url (id c))) k) ∧
       (∀ data c2, run (k (inl data)) c2
                   = (set_loading false (set_item (Some data) c2), Fulfilled tt)) ∧
       (∀ e c2, run (k (inr e)) c2 = (c2, Rejected e)).
Proof. eexists. split; [reflexivity|]. split; reflexivity. Qed.

Lemma run_handler_same v c : run (handler v (Some v)) c = (c, Fulfilled tt).
Proof. unfold handler. by rewrite decide_False by (by intros []). Qed.

Lemma run_handler_changed newVal oldVal c :
  Some newVal ≠ oldVal → run (handler newVal oldVal) c = run load c.
Proof. intros Hne. unfold handler. by rewrite decide_True. Qed.

(** C7. When [id] takes another value than it had, and when the instance is
    created, the provider sets [loading], requests the url of the new id and
    leaves [item] as it is until the response is there; with the response,
    whatever has become of the instance meanwhile, [item] is the data of the
    response and [loading] is cleared.  When [id] is set to the value it has,
    nothing is requested and nothing changes; and the handler of the watcher,
    were it run with a new value that is the old one, would request nothing
    either. *)
Theorem SimpleProvider_loads_on_id_change c newVal :
  newVal ≠ id c →
  let changed := id_set newVal c in
  let mounted := created newVal in
  (id changed.1 = newVal ∧ loading changed.1 = true ∧ item changed.1 = item c ∧
   awaiting changed.2 = Some (GET (url newVal))) ∧
  (∀ data c', item (resume changed.2 (inl data) c').1 = Some data ∧
              loading (resume changed.2 (inl data) c').1 = false ∧
              id (resume changed.2 (inl data) c').1 = id c' ∧
              settlement (resume changed.2 (inl data) c').2 = Resolves tt) ∧
  (id mounted.1 = newVal ∧ loading mounted.1 = true ∧ item mounted.1 = None ∧
   awaiting mounted.2 = Some (GET (url newVal))) ∧
  (∀ data c', item (resume mounted.2 (inl data) c').1 = Some data ∧
              loading (resume mounted.2 (inl data) c').1 = false ∧
              id (resume mounted.2 (inl data) c').1 = id c' ∧
              settlement (resume mounted.2 (inl data) c').2 = Resolves tt) ∧
  ((id_set (id c) c).1 = c ∧ awaiting (id_set (id c) c).2 = None ∧
   settlement (id_set (id c) c).2 = Resolves tt) ∧
  (∀ v, (run (handler v (Some v)) c).1 = c ∧
        awaiting (run (handler v (Some v)) c).2 = None ∧
        (run (handler v None) c).1 = set_loading true c ∧
        awaiting (run (handler v None) c).2 = Some (GET (url (id c)))).
Proof.
  intros Hne changed mounted.
  assert (Hchanged : changed = run load (set_id newVal c)).
  { unfold changed, id_set. rewrite decide_False by done.
    by rewrite run_handler_changed by congruence. }
  assert (Hmounted : mounted = run load (data newVal)).
  { unfold mounted, created. by rewrite run_handler_changed. }
  rewrite Hchanged, Hmounted. split_and!; try done.
  - unfold id_set. by rewrite decide_True.
  - unfold id_set. by rewrite decide_True.
  - unfold id_set. by rewrite decide_True.
  - intros v. rewrite run_handler_same, run_handler_changed by done. by split_and!.
Qed.

End SimpleProvider.

#[global] Arguments id {Item} s.
#[global] Arguments loading {Item} s.
#[global] Arguments item {Item} s.

Section StoreProvider.

(** The attributes handed to the store action, [this.attributes]. *)
Variable Attrs : Type.
Variable Err : Type.
(** The name of the store action the provider was made with. *)
Variable storeAction : string.
Variable JSON_stringify : Attrs → string.

(** The instance: [attributes] and what [data()] declares; [error] is [None]
    for [null]. *)
Record StoreProvider : Type := {
  attributes : Attrs;
  sp_loading : bool;
  error : option Err;
}.

Definition set_attributes (v : Attrs) (c : StoreProvider) : StoreProvider :=
  {| attributes := v; sp_loading := sp_loading c; error := error c |}.
Definition set_sp_loading (v : bool) (c : StoreProvider) : StoreProvider :=
  {| attributes := attributes c; sp_loading := v; error := error c |}.
Definition set_error (v : option Err) (c : StoreProvider) : StoreProvider :=
  {| attributes := attributes c; sp_loading := sp_loading c; error := v |}.

(** [data()]. *)
Definition sp_data (attrs : Attrs) : StoreProvider :=
  {| attributes := attrs; sp_loading := false; error := None |}.

Abbreviation sp_task := (async StoreProvider (Request unit Attrs) unit Err unit).

(** [async load()] of the store provider. *)
Definition sp_load : sp_task :=
  modify (set_sp_loading true) ;;
  try_catch
    (this ← Get Ret ;
     await (Dispatch storeAction (attributes this)) ;;
     modify (set_error None) ;;
     modify (set_sp_loading false))
    (λ error,
       modify (set_error (Some error)) ;;
       modify (set_sp_loading false)).

(** [created()]. *)
Definition sp_created (attrs : Attrs) : StoreProvider * outcome StoreProvider (Request unit Attrs) unit Err unit :=
  run sp_load (sp_data attrs).

(** The watcher of [$attrs]. *)
Definition watch_attrs (newVal oldVal : Attrs) : sp_task :=
  if decide (JSON_stringify newVal ≠ JSON_stringify oldVal) then sp_load else Ret tt.

(** ** Properties *)

(** [sp_load] runs up to the dispatch with [loading] set; however the action
    settles, the promise of [sp_load] is fulfilled and [loading] cleared:
    [error] is the rejection reason, or [null] when the action went
    through. *)
Lemma run_sp_load c :
  ∃ k, run sp_load c
       = (set_sp_loading true c, Pending (Dispatch storeAction (attributes c)) k) ∧
       (∀ c2, run (k (inl tt)) c2
              = (set_sp_loading false (set_error None c2), Fulfilled tt)) ∧
       (∀ e c2, run (k (inr e)) c2
                = (set_sp_loading false (set_error (Some e) c2), Fulfilled tt)).
Proof. eexists. split; [reflexivity|]. split; reflexivity. Qed.

End StoreProvider.

#[global] Arguments attributes {Attrs Err} s.
#[global] Arguments sp_loading {Attrs Err} s.
#[global] Arguments error {Attrs Err} s.

(** C8. The request fails with [e].  [load] of the basic provider has no
    handler for it: whatever state the instance is in by then, the state
    stays as it is and the promise of [load] is rejected with [e].  [load]
    of the store provider catches it: its promise is fulfilled, [error] holds
    [e] and [loading] is cleared; a later [load] that goes through puts
    [error] back to [null]. *)
Theorem load_on_failure (Item Attrs Err : Type) (url : string → string)
    (storeAction : string) (e : Err)
    (c : SimpleProvider Item) (sc : StoreProvider Attrs Err) :
  let basic := run_settled (load Item Err url) (inr e) c in
  let stored := run_settled (sp_load Attrs Err storeAction) (inr e) sc in
  let later := run_settled (sp_load Attrs Err storeAction) (inl tt) stored.1 in
  (∃ k, run (load Item Err url) c
        = (set_loading Item true c, Pending (GET (url (id c))) k) ∧
        ∀ c', run (k (inr e)) c' = (c', Rejected e)) ∧
  (settlement basic.2 = Rejects e ∧
   loading basic.1 = true ∧ item basic.1 = item c) ∧
  (∃ k, run (sp_load Attrs Err storeAction) sc
        = (set_sp_loading Attrs Err true sc,
           Pending (Dispatch storeAction (attributes sc)) k) ∧
        (∀ sc', run (k (inr e)) sc'
                = (set_sp_loading Attrs Err false (set_error Attrs Err (Some e) sc'),
                   Fulfilled tt)) ∧
        (∀ sc', run (k (inl tt)) sc'
                = (set_sp_loading Attrs Err false (set_error Attrs Err None sc'),
                   Fulfilled tt))) ∧
  (settlement stored.2 = Resolves tt ∧
   error stored.1 = Some e ∧ sp_loading stored.1 = false) ∧
  (settlement later.2 = Resolves tt ∧
   error later.1 = None ∧ sp_loading later.1 = false).
Proof.
  intros basic stored later.
  destruct (run_load Item Err url c) as (k & Hrun & _ & Hreject).
  destruct (run_sp_load Attrs Err storeAction sc) as (k' & Hrun' & Hok & Hcaught).
  split_and!.
  - exists k. split; [exact Hrun | intros c'; apply Hreject].
  - reflexivity.
  - reflexivity.
  - reflexivity.
  - exists k'. split; [exact Hrun'|]. split; [intros sc'; apply Hcaught | exact Hok].
  - reflexivity.
  - reflexivity.
  - reflexivity.
  - reflexivity.
  - reflexivity.
  - reflexivity.
Qed.

(** ** A job provider *)

(** The computed [url] of [JobProvider]; [prependPath] is of
    [utils/redirect]. *)
Definition JobProvider_url (prependPath : string → string) (id : string) : string :=
  prependPath ("api/jobs/" +:+ id +:+ "?full=true").

(** A [prependPath] for a server at the root. *)
Definition root_path (path : string) : string := "/" +:+ path.

Definition shown_job : SimpleProvider string :=
  {| id := "b8a0d6158b9961df"; loading := false; item := Some "{state: ok}" |}.

Example id_set_example :
  (id_set string unit (JobProvider_url root_path) "c9b1e7269ca072e0" shown_job).1
  = {| id := "c9b1e7269ca072e0"; loading := true; item := Some "{state: ok}" |} ∧
  awaiting (id_set string unit (JobProvider_url root_path) "c9b1e7269ca072e0" shown_job).2
  = Some (GET "/api/jobs/c9b1e7269ca072e0?full=true").
Proof. split; reflexivity. Qed.

Lemma SimpleProvider_loads_on_id_change_witness :
  "c9b1e7269ca072e0" ≠ id shown_job ∧
  awaiting (id_set string unit (JobProvider_url root_path) "c9b1e7269ca072e0" shown_job).2
  = Some (GET "/api/jobs/c9b1e7269ca072e0?full=true") ∧
  item (resume
          (id_set string unit (JobProvider_url root_path) "c9b1e7269ca072e0" shown_job).2
          (inl "{state: running}")
          (id_set string unit (JobProvider_url root_path) "c9b1e7269ca072e0" shown_job).1).1
  = Some "{state: running}".
Proof.
  assert (Hne : "c9b1e7269ca072e0" ≠ id shown_job) by discriminate.
  split; [exact Hne|].
  destruct (SimpleProvider_loads_on_id_change string unit (JobProvider_url root_path)
              shown_job "c9b1e7269ca072e0" Hne) as ((_ & _ & _ & Hreq) & Hanswer & _).
  split; [exact Hreq|]. apply Hanswer.
Defined.

End Providers.

(* ===================================================================== *)
(** * The toolbar of the workflow editor ([Workflow/Editor/Options.vue]) *)
(* ===================================================================== *)

Module EditorOptions.

(** The events of [defineEmits]. *)
Inductive Event : Type :=
| Emit_onAttributes | Emit_onSave | Emit_onCreate | Emit_onReport
| Emit_onSaveAs | Emit_onLayout | Emit_onLint | Emit_onUpgrade
| Emit_onDownload | Emit_onRun.

#[global] Instance Event_eq_dec : EqDecision Event.
Proof. solve_decision. Defined.

(** The props; a boolean prop that is not passed is [false]. *)
Record Props : Type := {
  isNewTempWorkflow : bool;
  hasChanges : bool;
  hasInvalidConnections : bool;
  requiredReindex : bool;
}.

(** What the component has sent out: the events emitted to the parent and
    the lines written to the console, oldest first. *)
Record Output : Type := {
  emitted : list Event;
  console : list string;
}.

Definition emit (e : Event) (o : Output) : Output :=
  {| emitted := (emitted o ++ [e])%list; console := console o |}.
Definition console_log (line : string) (o : Output) : Output :=
  {| emitted := emitted o; console := (console o ++ [line])%list |}.

(** [confirm(message, { id, okTitle })] of [useConfirmDialog]: the dialog is
    shown; its promise resolves to the choice of the user. *)
Record ConfirmDialog : Type := {
  message : string;
  dialog_id : string;
  okTitle : string;
}.

Section OnSave.
Variable props : Props.
(** The type of a rejection reason. *)
Variable Err : Type.

Abbreviation task := (async Output ConfirmDialog bool Err unit).

(** [saveHover]. *)
Definition saveHover : string :=
  if isNewTempWorkflow props then "Create a new workflow"
  else if negb (hasChanges props) then "Workflow has no changes"
  else if hasInvalidConnections props then
    "Workflow has invalid connections, review and remove invalid connections"
  else "Save Workflow".

(** [emitSaveOrCreate()]. *)
Definition emitSaveOrCreate : task :=
  if isNewTempWorkflow props then modify (emit Emit_onCreate)
  else modify (emit Emit_onSave).

(** [async onSave()]. *)
Definition onSave : task :=
  if hasInvalidConnections props then
    modify (console_log "getting confirmation") ;;
    confirmed ← await
      {| message := "Workflow has invalid connections. You can save the workflow, but it may not run correctly.";
         dialog_id := "save-workflow-confirmation";
         okTitle := "Save Workflow" |} ;
    if (confirmed : bool) then emitSaveOrCreate else Ret tt
  else emitSaveOrCreate.

(** The event [emitSaveOrCreate] emits. *)
Definition save_event : Event :=
  if isNewTempWorkflow props then Emit_onCreate else Emit_onSave.

(** ** Properties *)

Lemma run_emitSaveOrCreate o :
  run emitSaveOrCreate o = (emit save_event o, Fulfilled tt).
Proof. unfold emitSaveOrCreate, save_event. by destruct (isNewTempWorkflow props). Qed.

(** C10. Without invalid connections [onSave] emits one event at once,
    [onCreate] for a new temporary workflow and [onSave] otherwise.  With
    invalid connections it emits nothing before the dialog is answered; it
    emits that one event when the user confirms and nothing when the user
    declines. *)
Theorem onSave_emits o :
  if hasInvalidConnections props then
    emitted (run onSave o).1 = emitted o ∧
    (∃ dialog, awaiting (run onSave o).2 = Some dialog) ∧
    (∀ o', emitted (resume (run onSave o).2 (inl true) o').1
           = (emitted o' ++ [save_event])%list ∧
           settlement (resume (run onSave o).2 (inl true) o').2 = Resolves tt) ∧
    (∀ o', emitted (resume (run onSave o).2 (inl false) o').1 = emitted o' ∧
           settlement (resume (run onSave o).2 (inl false) o').2 = Resolves tt)
  else
    emitted (run onSave o).1 = (emitted o ++ [save_event])%list ∧
    console (run onSave o).1 = console o ∧
    settlement (run onSave o).2 = Resolves tt.
Proof.
  unfold onSave. destruct (hasInvalidConnections props).
  - split_and!; [done|by eexists| |done].
    intros o'. simpl.
    change (run (emitSaveOrCreate ≫= _) o') with (run (bind emitSaveOrCreate Ret) o').
    unfold emitSaveOrCreate, save_event. by destruct (isNewTempWorkflow props).
  - by rewrite run_emitSaveOrCreate.
Qed.

End OnSave.

(** ** A workflow with invalid connections *)

Definition edited_workflow : Props :=
  {| isNewTempWorkflow := false; hasChanges := true;
     hasInvalidConnections := true; requiredReindex := false |}.

Definition new_workflow : Props :=
  {| isNewTempWorkflow := true; hasChanges := false;
     hasInvalidConnections := false; requiredReindex := false |}.

Definition nothing_sent : Output := {| emitted := []; console := [] |}.

Example onSave_new_workflow :
  run (onSave new_workflow unit) nothing_sent
  = ({| emitted := [Emit_onCreate]; console := [] |}, Fulfilled tt).
Proof. reflexivity. Qed.

Example onSave_declined :
  run_settled (onSave edited_workflow unit) (inl false) nothing_sent
  = ({| emitted := []; console := ["getting confirmation"] |}, Fulfilled tt).
Proof. reflexivity. Qed.

Example onSave_confirmed :
  run_settled (onSave edited_workflow unit) (inl true) nothing_sent
  = ({| emitted := [Emit_onSave]; console := ["getting confirmation"] |}, Fulfilled tt).
Proof. reflexivity. Qed.

End EditorOptions.

(* ===================================================================== *)
(** * The filter definitions of the list views *)
(* ===================================================================== *)

Module Filtering.

(** ** The filter definitions of a list view *)

(** The [type] of a filter: [String], [Number], [Date], [Boolean] or
    ["MultiTags"]. *)
Inductive FilterType : Type :=
| String_type | Number_type | Date_type | Boolean_type | MultiTags_type.

Inductive Converter : Type := expandNameTag | toBool | toDate.

(** The handlers [contains(attribute, query, converter)],
    [equals(attribute, query, converter)] and
    [compare(attribute, variant, converter)]. *)
Inductive Handler : Type :=
| contains (attribute : string) (query : option string) (converter : option Converter)
| equals (attribute : string) (query : option string) (converter : option Converter)
| compare (attribute : string) (variant : string) (converter : option Converter).

(** A filter definition.  [datalist] and [helpInfo] of [state], which only
    the menu shows, are left out. *)
Record FilterDef : Type := {
  placeholder : option string;
  type : option FilterType;
  boolType : option string;
  handler : Handler;
  isRangeInput : bool;
  default : option bool;
  menuItem : bool;
}.

(** [validFilters] of the history panel, from which [HistoryFilters] is
    made. *)
Definition HistoryFilters_validFilters : gmap string FilterDef :=
  list_to_map [
    ("name", {| placeholder := Some "name"; type := Some String_type; boolType := None;
                handler := contains "name" None None;
                isRangeInput := false; default := None; menuItem := true |});
    ("extension", {| placeholder := Some "extension"; type := Some String_type; boolType := None;
                handler := equals "extension" None None;
                isRangeInput := false; default := None; menuItem := true |});
    ("tag", {| placeholder := Some "tag"; type := Some String_type; boolType := None;
                handler := contains "tags" (Some "tag") (Some expandNameTag);
                isRangeInput := false; default := None; menuItem := true |});
    ("state", {| placeholder := Some "state"; type := Some String_type; boolType := None;
                handler := equals "state" None None;
                isRangeInput := false; default := None; menuItem := true |});
    ("genome_build", {| placeholder := Some "database"; type := Some String_type; boolType := None;
                handler := contains "genome_build" None None;
                isRangeInput := false; default := None; menuItem := true |});
    ("related", {| placeholder := Some "related"; type := Some Number_type; boolType := None;
                handler := equals "related" None None;
                isRangeInput := false; default := None; menuItem := true |});
    ("hid", {| placeholder := Some "index"; type := Some Number_type; boolType := None;
                handler := equals "hid" None None;
                isRangeInput := true; default := None; menuItem := true |});
    ("hid_ge", {| placeholder := None; type := None; boolType := None;
                handler := compare "hid" "ge" None;
                isRangeInput := false; default := None; menuItem := false |});
    ("hid_le", {| placeholder := None; type := None; boolType := None;
                handler := compare "hid" "le" None;
                isRangeInput := false; default := None; menuItem := false |});
    ("create_time", {| placeholder := Some "creation time"; type := Some Date_type; boolType := None;
                handler := compare "create_time" "le" (Some toDate);
                isRangeInput := true; default := None; menuItem := true |});
    ("create_time_ge", {| placeholder := None; type := None; boolType := None;
                handler := compare "create_time" "ge" (Some toDate);
                isRangeInput := false; default := None; menuItem := false |});
    ("create_time_le", {| placeholder := None; type := None; boolType := None;
                handler := compare "create_time" "le" (Some toDate);
                isRangeInput := false; default := None; menuItem := false |});
    ("deleted", {| placeholder := Some "Deleted"; type := Some Boolean_type; boolType := None;
                handler := equals "deleted" (Some "deleted") (Some toBool);
                isRangeInput := false; default := Some false; menuItem := true |});
    ("visible", {| placeholder := Some "Visible"; type := Some Boolean_type; boolType := None;
                handler := equals "visible" (Some "visible") (Some toBool);
                isRangeInput := false; default := Some true; menuItem := true |});
    ("update_time", {| placeholder := None; type := None; boolType := None;
                handler := compare "update_time" "le" (Some toDate);
                isRangeInput := false; default := None; menuItem := false |});
    ("update_time_ge", {| placeholder := None; type := None; boolType := None;
                handler := compare "update_time" "ge" (Some toDate);
                isRangeInput := false; default := None; menuItem := false |});
    ("update_time_gt", {| placeholder := None; type := None; boolType := None;
                handler := compare "update_time" "gt" (Some toDate);
                isRangeInput := false; default := None; menuItem := false |});
    ("update_time_le", {| placeholder := None; type := None; boolType := None;
                handler := compare "update_time" "le" (Some toDate);
                isRangeInput := false; default := None; menuItem := false |});
    ("update_time_lt", {| placeholder := None; type := None; boolType := None;
                handler := compare "update_time" "lt" (Some toDate);
                isRangeInput := false; default := None; menuItem := false |})
  ].

(** [validFilters] of the list of pages, from which [PageFilters] is made. *)
Definition PageFilters_validFilters : gmap string FilterDef :=
  list_to_map [
    ("title", {| placeholder := Some "title"; type := Some String_type; boolType := None;
                handler := contains "title" None None;
                isRangeInput := false; default := None; menuItem := true |});
    ("user", {| placeholder := Some "owner"; type := Some String_type; boolType := None;
                handler := contains "user" None None;
                isRangeInput := false; default := None; menuItem := false |});
    ("tag", {| placeholder := Some "tag(s)"; type := Some MultiTags_type; boolType := None;
                handler := contains "tag" (Some "tag") (Some expandNameTag);
                isRangeInput := false; default := None; menuItem := true |});
    ("published", {| placeholder := Some "Filter on published pages";
                type := Some Boolean_type; boolType := Some "is";
                handler := equals "published" (Some "published") (Some toBool);
                isRangeInput := false; default := None; menuItem := true |});
    ("importable", {| placeholder := Some "Filter on importable pages";
                type := Some Boolean_type; boolType := Some "is";
                handler := equals "importable" (Some "importable") (Some toBool);
                isRangeInput := false; default := None; menuItem := true |});
    ("shared_with_me", {| placeholder := Some "Filter on pages shared with me";
                type := Some Boolean_type; boolType := Some "is";
                handler := equals "shared_with_me" (Some "shared_with_me") (Some toBool);
                isRangeInput := false; default := None; menuItem := true |})
  ].

End Filtering.

(* ===================================================================== *)
(** * More on the broadcast store *)
(* ===================================================================== *)

Module StoreBehaviour.
Import Broadcasts.

(** The broadcasts a filter lets through are some of those of a filter
    that lets more through, in the same order. *)
Lemma filter_sublist_mono {A} (P Q : A → Prop)
    `{!∀ x, Decision (P x)} `{!∀ x, Decision (Q x)} (l : list A) :
  (∀ x, P x → Q x) → filter P l `sublist_of` filter Q l.
Proof.
  intros HPQ. induction l as [|x l IH]; [done|].
  rewrite !filter_cons. destruct (decide (P x)) as [HP|HnP].
  - rewrite decide_True by auto. by apply sublist_skip.
  - destruct (decide (Q x)); [by apply sublist_cons | done].
Qed.

Lemma Array_filter_from_sublist {A} (f : nat → A → bool) i (l : list A) :
  Array_filter_from f i l `sublist_of` l.
Proof.
  revert i. induction l as [|x l IH]; intros i; simpl; [done|].
  destruct (f i x); [by apply sublist_skip | by apply sublist_cons].
Qed.

Lemma Array_filter_from_sublist_mono {A} (f g : nat → A → bool) i (l : list A) :
  (∀ j x, f j x = true → g j x = true) →
  Array_filter_from f i l `sublist_of` Array_filter_from g i l.
Proof.
  intros Hfg. revert i. induction l as [|x l IH]; intros i; simpl; [done|].
  destruct (f i x) eqn:Hf.
  - rewrite (Hfg _ _ Hf). by apply sublist_skip.
  - destruct (g i x); [by apply sublist_cons | done].
Qed.

Section Behaviour.
Variable Date_parse : string → option Z.
Variable mergeObjectListsById :
  list BroadcastNotification → list BroadcastNotification → list BroadcastNotification.
Variable Err : Type.
Variable inherited : string → bool.

Local Abbreviation hasExpired := (hasExpired Date_parse).
Local Abbreviation passed := (passed Date_parse).
Local Abbreviation activeBroadcasts := (activeBroadcasts inherited).
Local Abbreviation loadBroadcasts := (loadBroadcasts mergeObjectListsById Err).
Local Abbreviation updateBroadcasts := (updateBroadcasts Date_parse mergeObjectListsById).
Local Abbreviation clearExpiredDismissedBroadcasts :=
  (clearExpiredDismissedBroadcasts Date_parse).

(** X1. When the request of [loadBroadcasts] is rejected, the list of
    broadcasts stays what it is by then, [loadingBroadcasts] is cleared all
    the same, and the promise of [loadBroadcasts] is rejected with the same
    reason. *)
Theorem loadBroadcasts_rejected s e :
  ∃ k, run loadBroadcasts s
       = (set_loadingBroadcasts true s, Pending FetchAllBroadcasts k) ∧
       ∀ s', run (k (inr e)) s' = (set_loadingBroadcasts false s', Rejected e) ∧
             broadcasts (run (k (inr e)) s').1 = broadcasts s' ∧
             dismissedBroadcasts (run (k (inr e)) s').1 = dismissedBroadcasts s'.
Proof. eexists. split; [reflexivity|]. intros s'. by split_and!. Qed.

(** X2. Two calls of [loadBroadcasts] are in flight.  Whichever request is
    answered first, that answer clears [loadingBroadcasts] although one
    request is still open, and the list is the one of the answer that came
    last, be it that of the first call or that of the second; when what comes
    last is a rejection, the list of the earlier answer stays. *)
Theorem loadBroadcasts_last_settled_wins s data1 data2 e :
  let first := run loadBroadcasts s in
  let second := run loadBroadcasts first.1 in
  let answered2 := resume second.2 (inl data2) second.1 in
  let answered21 := resume first.2 (inl data1) answered2.1 in
  let rejected21 := resume first.2 (inr e) answered2.1 in
  let answered1 := resume first.2 (inl data1) second.1 in
  let answered12 := resume second.2 (inl data2) answered1.1 in
  let rejected12 := resume second.2 (inr e) answered1.1 in
  (loadingBroadcasts second.1 = true ∧
   awaiting first.2 = Some FetchAllBroadcasts ∧
   awaiting second.2 = Some FetchAllBroadcasts) ∧
  (broadcasts answered2.1 = mergeObjectListsById data2 [] ∧
   loadingBroadcasts answered2.1 = false) ∧
  (broadcasts answered21.1 = mergeObjectListsById data1 [] ∧
   loadingBroadcasts answered21.1 = false ∧
   settlement answered21.2 = Resolves tt) ∧
  (broadcasts rejected21.1 = mergeObjectListsById data2 [] ∧
   settlement rejected21.2 = Rejects e) ∧
  (broadcasts answered1.1 = mergeObjectListsById data1 [] ∧
   loadingBroadcasts answered1.1 = false) ∧
  (broadcasts answered12.1 = mergeObjectListsById data2 [] ∧
   loadingBroadcasts answered12.1 = false ∧
   settlement answered12.2 = Resolves tt) ∧
  (broadcasts rejected12.1 = mergeObjectListsById data1 [] ∧
   settlement rejected12.2 = Rejects e).
Proof. by split_and!. Qed.

(** X3. After [dismissBroadcast b] the active broadcasts are those that were
    active before, without the ones of the id of [b]; the list of
    broadcasts itself is untouched. *)
Theorem activeBroadcasts_dismissBroadcast b s :
  activeBroadcasts (dismissBroadcast b s)
  = filter (λ b', id b' ≠ id b) (activeBroadcasts s) ∧
  broadcasts (dismissBroadcast b s) = broadcasts s.
Proof.
  split; [|done]. unfold Broadcasts.activeBroadcasts. simpl.
  rewrite list_filter_filter. apply list_filter_iff. intros b'.
  destruct (decide (id b = id b')) as [Heq|Hne].
  - rewrite Heq, lookup_insert_eq. split; [by intros [? _] | by intros [Hne _]].
  - rewrite lookup_insert_ne by done. split; [by split | by intros [_ ?]].
Qed.

(** X4. Of two dismissals of the same id the later one decides what is
    stored; dismissals of different ids can be swapped. *)
Theorem dismissBroadcast_twice b1 b2 s :
  dismissBroadcast b1 (dismissBroadcast b2 s)
  = if decide (id b1 = id b2) then dismissBroadcast b1 s
    else dismissBroadcast b2 (dismissBroadcast b1 s).
Proof.
  unfold dismissBroadcast, set_dismissedBroadcasts. simpl.
  destruct (decide (id b1 = id b2)) as [Heq|Hne]; f_equal.
  - by rewrite Heq, insert_insert_eq.
  - by apply insert_insert_ne.
Qed.

(** X5. [clearExpiredDismissedBroadcasts] only takes records away: the map
    after it is part of the map before, the list of broadcasts is the same,
    so every broadcast that was active is still active, in the same order;
    with the same readings of the clock a second run changes nothing. *)
Theorem clearExpiredDismissedBroadcasts_only_removes clock s :
  dismissedBroadcasts (clearExpiredDismissedBroadcasts clock s) ⊆ dismissedBroadcasts s ∧
  broadcasts (clearExpiredDismissedBroadcasts clock s) = broadcasts s ∧
  activeBroadcasts s `sublist_of`
    activeBroadcasts (clearExpiredDismissedBroadcasts clock s) ∧
  clearExpiredDismissedBroadcasts clock (clearExpiredDismissedBroadcasts clock s)
  = clearExpiredDismissedBroadcasts clock s.
Proof.
  split_and!.
  - apply map_filter_subseteq.
  - done.
  - unfold Broadcasts.activeBroadcasts. simpl. apply filter_sublist_mono.
    intros b [Hnone Hinh]. split; [|done]. by apply map_lookup_filter_None_2; left.
  - unfold Broadcasts.clearExpiredDismissedBroadcasts, set_dismissedBroadcasts.
    simpl. f_equal. rewrite map_filter_filter. apply map_filter_ext.
    intros key record _. simpl. tauto.
Qed.

(** X6. [updateBroadcasts] stores some of the broadcasts of the merged list,
    in the order of the merged list, and touches neither the dismissals nor
    the loading flag; with one reading of the clock for the whole call the
    stored list is the merged list without the broadcasts that have expired
    at that reading. *)
Theorem updateBroadcasts_sublist clock now broadcastList s :
  broadcasts (updateBroadcasts clock broadcastList s)
    `sublist_of` mergeObjectListsById (broadcasts s) broadcastList ∧
  dismissedBroadcasts (updateBroadcasts clock broadcastList s) = dismissedBroadcasts s ∧
  loadingBroadcasts (updateBroadcasts clock broadcastList s) = loadingBroadcasts s ∧
  broadcasts (updateBroadcasts (λ _, now) broadcastList s)
  = filter (λ b, hasExpired now (expiration_time b) = false)
      (mergeObjectListsById (broadcasts s) broadcastList).
Proof.
  split_and!; [apply Array_filter_from_sublist|done|done|].
  unfold Broadcasts.updateBroadcasts. simpl.
  generalize (mergeObjectListsById (broadcasts s) broadcastList) 0%nat.
  intros l. induction l as [|b l IH]; intros i; simpl; [done|].
  rewrite filter_cons, IH.
  by destruct (Broadcasts.hasExpired Date_parse now (expiration_time b)).
Qed.

(** X19. After [updateBroadcasts] the active broadcasts are the broadcasts of
    the merged list that had not expired when the filter came to them, under
    whose id no dismissal is stored and whose id names no other property of
    the object of the dismissals. *)
Theorem activeBroadcasts_updateBroadcasts clock broadcastList s b :
  b ∈ activeBroadcasts (updateBroadcasts clock broadcastList s) ↔
  (∃ i, mergeObjectListsById (broadcasts s) broadcastList !! i = Some b ∧
        hasExpired (clock i) (expiration_time b) = false) ∧
  dismissedBroadcasts s !! id b = None ∧
  inherited (id b) = false.
Proof.
  rewrite elem_of_activeBroadcasts, elem_of_updateBroadcasts. simpl.
  by setoid_rewrite hasExpired_false.
Qed.

(** X7. Time only makes broadcasts expire: what has expired at one time has
    expired at every later time, and an update whose clock is nowhere
    behind that of another stores some of what the other stores.  A
    broadcast has not expired at the very instant its expiration time
    denotes; one millisecond later it has. *)
Theorem expiry_monotone now now' e clock clock' broadcastList s :
  (now ≤ now')%Z →
  (∀ i, (clock i ≤ clock' i)%Z) →
  (hasExpired now e = true → hasExpired now' e = true) ∧
  broadcasts (updateBroadcasts clock' broadcastList s)
    `sublist_of` broadcasts (updateBroadcasts clock broadcastList s) ∧
  (∀ str instant, str ≠ "" → Date_parse (str +:+ "Z") = Some instant →
     hasExpired instant (Some str) = false ∧
     hasExpired (instant + 1) (Some str) = true).
Proof.
  intros Hnow Hclock.
  assert (Hmono : ∀ t t' x,
            (t ≤ t')%Z → hasExpired t x = true → hasExpired t' x = true).
  { intros t t' x Ht (str & d & ? & ? & ? & ?)%hasExpired_true.
    apply hasExpired_true. exists str, d. split_and!; [done..|lia]. }
  split_and!; [by apply Hmono| |].
  - unfold Broadcasts.updateBroadcasts. simpl.
    apply Array_filter_from_sublist_mono. intros j b Hj.
    apply negb_true_iff. apply negb_true_iff in Hj.
    destruct (hasExpired (clock j) (expiration_time b)) eqn:Hx; [|done].
    by rewrite (Hmono _ _ _ (Hclock j) Hx) in Hj.
  - intros str instant Hne Hd. split.
    + apply hasExpired_false. intros (str' & d & [= <-] & _ & Hd' & Hlt).
      rewrite Hd in Hd'. injection Hd' as <-. lia.
    + apply hasExpired_true. exists str, instant. split_and!; [done..|lia].
Qed.

(** X8. An expiration time that is no date never passes: a broadcast with
    such a time is never dropped by [updateBroadcasts] and a dismissal
    record with such a time is never purged. *)
Theorem no_date_never_expires str :
  Date_parse (str +:+ "Z") = None →
  (∀ now, hasExpired now (Some str) = false) ∧
  (∀ clock broadcastList s b,
     expiration_time b = Some str →
     b ∈ mergeObjectListsById (broadcasts s) broadcastList →
     b ∈ broadcasts (updateBroadcasts clock broadcastList s)) ∧
  (∀ clock s key,
     dismissedBroadcasts s !! key = Some {| dismissed_expiration_time := Some str |} →
     dismissedBroadcasts (clearExpiredDismissedBroadcasts clock s) !! key
     = Some {| dismissed_expiration_time := Some str |}).
Proof.
  intros Hnone.
  assert (Hnever : ∀ t, ¬ passed t (Some str)).
  { intros t (str' & d & [= <-] & _ & Hd & _). congruence. }
  split_and!.
  - intros now. by apply hasExpired_false.
  - intros clock broadcastList s b Hb [i Hi]%list_elem_of_lookup.
    apply elem_of_updateBroadcasts. exists i. split; [done|].
    rewrite Hb. by apply Hnever.
  - intros clock s key Hkey. apply lookup_clearExpiredDismissedBroadcasts.
    split; [done|]. by apply Hnever.
Qed.

End Behaviour.

(** ** A broadcast with a broken expiration time *)

Definition broken : BroadcastNotification :=
  {| id := "2d9035b3fc152403";
     expiration_time := Some "next week";
     create_time := "2023-10-01T00:00:00";
     content := "Survey" |}.

Lemma expiry_monotone_witness :
  (example_now ≤ example_now + 86400000)%Z ∧
  (∀ i : nat, (example_now ≤ example_now + 86400000)%Z) ∧
  (hasExpired example_Date_parse example_now (expiration_time maintenance) = true →
   hasExpired example_Date_parse (example_now + 86400000)
     (expiration_time maintenance) = true) ∧
  broadcasts (updateBroadcasts example_Date_parse mergeObjectListsById_spec
                (λ _, example_now + 86400000) [release; maintenance] empty_store)
    `sublist_of`
  broadcasts (updateBroadcasts example_Date_parse mergeObjectListsById_spec
                (λ _, example_now) [release; maintenance] empty_store).
Proof.
  assert (H1 : (example_now ≤ example_now + 86400000)%Z) by (unfold example_now; lia).
  split; [exact H1|]. split; [intros _; exact H1|].
  destruct (expiry_monotone example_Date_parse mergeObjectListsById_spec
              example_now (example_now + 86400000) (expiration_time maintenance)
              (λ _, example_now) (λ _, example_now + 86400000)
              [release; maintenance] empty_store H1 (λ _, H1)) as (Hm & Hsub & _).
  split; [exact Hm | exact Hsub].
Defined.

Lemma no_date_never_expires_witness :
  example_Date_parse ("next week" +:+ "Z") = None ∧
  hasExpired example_Date_parse example_now (expiration_time broken) = false ∧
  broken ∈ broadcasts
    (updateBroadcasts example_Date_parse mergeObjectListsById_spec
       (λ _, example_now) [broken; maintenance] empty_store).
Proof.
  assert (Hnone : example_Date_parse ("next week" +:+ "Z") = None) by reflexivity.
  destruct (no_date_never_expires example_Date_parse mergeObjectListsById_spec
              "next week" Hnone) as (Hnever & Hlist & _).
  split; [exact Hnone|]. split; [apply Hnever|].
  apply Hlist; [reflexivity|].
  rewrite mergeObjectListsById_spec_Permutation. vm_compute. set_solver.
Defined.

End StoreBehaviour.

(* ===================================================================== *)
(** * More on the data providers *)
(* ===================================================================== *)

Module ProviderBehaviour.
Import Providers.

Section Simple.
Variable Item : Type.
Variable Err : Type.
Variable url : string → string.

Local Abbreviation save := (save Item Err url).
Local Abbreviation id_set := (id_set Item Err url).
Local Abbreviation set_loading := (set_loading Item).
Local Abbreviation set_item := (set_item Item).

(** X9. [save] puts the new props to the url of the id the instance has and
    sets [loading]; [item] is what it was until the answer is there.  With
    the answer, whatever has become of the instance meanwhile, [item] is the
    data of the answer and [loading] is cleared.  With a rejection nothing is
    rolled back or cleared: the instance stays as it is, [loading] set, and
    the promise of [save] is rejected. *)
Theorem save_replaces_item c newProps :
  let started := run (save newProps) c in
  (loading started.1 = true ∧ item started.1 = item c ∧ id started.1 = id c ∧
   awaiting started.2 = Some (PUT (url (id c)) newProps)) ∧
  (∀ data c', item (resume started.2 (inl data) c').1 = Some data ∧
              loading (resume started.2 (inl data) c').1 = false ∧
              id (resume started.2 (inl data) c').1 = id c' ∧
              settlement (resume started.2 (inl data) c').2 = Resolves tt) ∧
  (∀ e c', (resume started.2 (inr e) c').1 = c' ∧
           settlement (resume started.2 (inr e) c').2 = Rejects e) ∧
  (∀ e, loading (run_settled (save newProps) (inr e) c).1 = true ∧
        item (run_settled (save newProps) (inr e) c).1 = item c ∧
        settlement (run_settled (save newProps) (inr e) c).2 = Rejects e).
Proof. by split_and!. Qed.

(** X10. The id goes from one value to a second and on to a third before any
    answer is there, and the request for the third is answered first.
    Nothing ties an answer to the id it was asked for: the answer that comes
    last stays as [item], here the data of the second id, while [id] is the
    third; and [loading] is cleared by the first answer, one request still
    open. *)
Theorem stale_answer_stays c idA idB dataA dataB :
  idA ≠ id c → idB ≠ idA →
  let first := id_set idA c in
  let second := id_set idB first.1 in
  let answeredB := resume second.2 (inl dataB) second.1 in
  let answeredA := resume first.2 (inl dataA) answeredB.1 in
  (awaiting first.2 = Some (GET (url idA)) ∧
   awaiting second.2 = Some (GET (url idB))) ∧
  (id answeredB.1 = idB ∧ item answeredB.1 = Some dataB ∧
   loading answeredB.1 = false) ∧
  (id answeredA.1 = idB ∧ item answeredA.1 = Some dataA ∧
   loading answeredA.1 = false).
Proof.
  intros HA HB first second answeredB answeredA.
  subst first second answeredB answeredA. unfold Providers.id_set.
  rewrite (decide_False (P := idA = id c)) by done.
  rewrite run_handler_changed by congruence. simpl.
  rewrite (decide_False (P := idB = idA)) by done.
  rewrite run_handler_changed by congruence. by split_and!.
Qed.

End Simple.

(** ** The providers of the upload keys *)

(** The store actions [fetchUploadDbKeys] of the db key store and
    [fetchUploadDatatypes] of the datatype store. *)
Inductive StoreFetch : Type := fetchUploadDbKeys | fetchUploadDatatypes.

Section Upload.
(** A db key, or a datatype. *)
Variable Key : Type.
Variable Err : Type.

(** An instance of [DbKeyProvider] or [DatatypesProvider]: the prop [id]
    ([None] when it is not passed), [loading] and [item] of the mixin, and
    what the getter of the store ([getUploadDbKeys], [getUploadDatatypes])
    gives at the moment; [None] is [null]. *)
Record UploadProvider : Type := {
  up_id : option string;
  up_loading : bool;
  up_item : option (list Key);
  getUpload : option (list Key);
}.

Definition set_up_loading (v : bool) (c : UploadProvider) : UploadProvider :=
  {| up_id := up_id c; up_loading := v; up_item := up_item c; getUpload := getUpload c |}.
Definition set_up_item (v : option (list Key)) (c : UploadProvider) : UploadProvider :=
  {| up_id := up_id c; up_loading := up_loading c; up_item := v; getUpload := getUpload c |}.

(** What the store does between a request and its answer. *)
Definition set_getUpload (v : option (list Key)) (c : UploadProvider) : UploadProvider :=
  {| up_id := up_id c; up_loading := up_loading c; up_item := up_item c; getUpload := v |}.

(** [data()] of the mixin. *)
Definition up_data (id_prop : option string) (stored : option (list Key)) : UploadProvider :=
  {| up_id := id_prop; up_loading := false; up_item := None; getUpload := stored |}.

(** [dbKeys == null || dbKeys.length == 0]. *)
Definition null_or_empty (keys : option (list Key)) : bool :=
  match keys with
  | None | Some [] => true
  | Some (_ :: _) => false
  end.

Local Abbreviation up_task := (async UploadProvider StoreFetch unit Err unit).

(** [async load()] of [DbKeyProvider], with [fetchUploadDbKeys], and of
    [DatatypesProvider], with [fetchUploadDatatypes]. *)
Definition upload_load (fetch : StoreFetch) : up_task :=
  modify (set_up_loading true) ;;
  this ← Get Ret ;
  keys ← (if null_or_empty (getUpload this) then
            await fetch ;;
            this' ← Get Ret ;
            Ret (getUpload this')
          else Ret (getUpload this)) ;
  modify (set_up_item keys) ;;
  modify (set_up_loading false).

Definition DbKeyProvider_load : up_task := upload_load fetchUploadDbKeys.
Definition DatatypesProvider_load : up_task := upload_load fetchUploadDatatypes.

(** The handler of the watcher of [id] that the mixin brings along; [load]
    is the one of the component. *)
Definition upload_handler (fetch : StoreFetch) (newVal oldVal : option string) : up_task :=
  if decide (newVal ≠ oldVal) then upload_load fetch else Ret tt.

(** The instance comes up: the watcher of the mixin is [immediate], its
    handler runs at creation with [undefined] for the old value; then
    [mounted()] calls [load].  Both happen before any answer can be there. *)
Definition upload_mount (fetch : StoreFetch) (id_prop : option string)
    (stored : option (list Key))
    : UploadProvider * outcome UploadProvider StoreFetch unit Err unit
                     * outcome UploadProvider StoreFetch unit Err unit :=
  let '(c1, watched) := run (upload_handler fetch id_prop None) (up_data id_prop stored) in
  let '(c2, mounted) := run (upload_load fetch) c1 in
  (c2, watched, mounted).

(** X11. [load] of the db key and datatypes providers asks the store to fetch
    only when the store holds nothing, [null] or an empty list.  When it
    holds keys, [item] is these keys at once, nothing is requested and
    [loading] is cleared.  Otherwise one fetch is requested; when it is
    through, [item] is what the store holds by then, be it still nothing;
    when it is rejected, [load] is rejected and [loading] stays set. *)
Theorem upload_load_uses_store fetch c :
  match getUpload c with
  | Some (key :: keys) =>
      run (upload_load fetch) c
      = (set_up_loading false (set_up_item (Some (key :: keys)) (set_up_loading true c)),
         Fulfilled tt)
  | _ =>
      ∃ k, run (upload_load fetch) c = (set_up_loading true c, Pending fetch k) ∧
           (∀ c', run (k (inl tt)) c'
                  = (set_up_loading false (set_up_item (getUpload c') c'), Fulfilled tt)) ∧
           (∀ e c', run (k (inr e)) c' = (c', Rejected e))
  end.
Proof.
  unfold upload_load. destruct c as [i l it [[|key keys]|]]; simpl.
  - eexists. split; [reflexivity|]. by split.
  - reflexivity.
  - eexists. split; [reflexivity|]. by split.
Qed.

(** X12. How often a provider of upload keys asks when it comes up.  With
    keys in the store it never asks and shows the keys.  With nothing in the
    store it asks once when no [id] is passed, and twice when one is: once
    from the watcher of [id] and once from [mounted]. *)
Theorem upload_mount_requests fetch id_prop stored :
  let '(c, watched, mounted) := upload_mount fetch id_prop stored in
  if null_or_empty stored then
    up_loading c = true ∧ up_item c = None ∧
    awaiting mounted = Some fetch ∧
    awaiting watched = (match id_prop with Some _ => Some fetch | None => None end)
  else
    up_loading c = false ∧ up_item c = stored ∧
    awaiting mounted = None ∧ awaiting watched = None.
Proof.
  unfold upload_mount, upload_handler.
  destruct id_prop as [i|], stored as [[|key keys]|]; simpl; by split_and!.
Qed.

End Upload.

(** ** A job whose answer comes late *)

Lemma stale_answer_stays_witness :
  "c9b1e7269ca072e0" ≠ id shown_job ∧ "f597429621d6eb2b" ≠ "c9b1e7269ca072e0" ∧
  let first := id_set string unit (JobProvider_url root_path) "c9b1e7269ca072e0" shown_job in
  let second := id_set string unit (JobProvider_url root_path) "f597429621d6eb2b" first.1 in
  let answeredB := resume second.2 (inl "{state: new}") second.1 in
  let answeredA := resume first.2 (inl "{state: error}") answeredB.1 in
  id answeredA.1 = "f597429621d6eb2b" ∧ item answeredA.1 = Some "{state: error}".
Proof.
  assert (HA : "c9b1e7269ca072e0" ≠ id shown_job) by discriminate.
  assert (HB : "f597429621d6eb2b" ≠ "c9b1e7269ca072e0") by discriminate.
  split; [exact HA|]. split; [exact HB|].
  destruct (stale_answer_stays string unit (JobProvider_url root_path) shown_job
              "c9b1e7269ca072e0" "f597429621d6eb2b" "{state: error}" "{state: new}"
              HA HB) as (_ & _ & Hid & Hitem & _).
  split; [exact Hid | exact Hitem].
Defined.

End ProviderBehaviour.

(* ===================================================================== *)
(** * More on the toolbar of the workflow editor *)
(* ===================================================================== *)

Module ToolbarBehaviour.
Import EditorOptions.

(** [:disabled] of the save button. *)
Definition save_disabled (props : Props) : bool :=
  negb (isNewTempWorkflow props) && negb (hasChanges props).

(** [:disabled] of the report button, of the options dropdown and of the run
    button. *)
Definition report_disabled (props : Props) : bool := isNewTempWorkflow props.
Definition options_disabled (props : Props) : bool := isNewTempWorkflow props.
Definition run_disabled (props : Props) : bool := isNewTempWorkflow props.

(** X13. The hover text of the save button goes with its state: the button is
    disabled exactly when the text reads that the workflow has no changes;
    the text warns of invalid connections only on an enabled button of a
    workflow that has them; and for a new temporary workflow the button is
    enabled, with the text about creating, while report, options and run are
    disabled. *)
Theorem saveHover_matches_button props :
  (save_disabled props = true ↔ saveHover props = "Workflow has no changes") ∧
  (saveHover props
   = "Workflow has invalid connections, review and remove invalid connections" →
   hasInvalidConnections props = true ∧ save_disabled props = false) ∧
  (saveHover props = "Save Workflow" ↔
   isNewTempWorkflow props = false ∧ hasChanges props = true ∧
   hasInvalidConnections props = false) ∧
  (isNewTempWorkflow props = true →
   save_disabled props = false ∧ saveHover props = "Create a new workflow" ∧
   report_disabled props = true ∧ options_disabled props = true ∧
   run_disabled props = true).
Proof.
  unfold save_disabled, saveHover, report_disabled, options_disabled, run_disabled.
  destruct props as [[] [] [] ?]; simpl; split_and!; try split; try done;
    intros; destruct_and?; done.
Qed.

(** X14. With invalid connections [onSave] writes one line to the console and
    shows the dialog [save-workflow-confirmation], whose button reads "Save
    Workflow".  When the promise of the dialog is rejected nothing is
    emitted and the promise of [onSave] is rejected with the same reason. *)
Theorem onSave_dialog props (Err : Type) o :
  hasInvalidConnections props = true →
  console (run (onSave props Err) o).1 = (console o ++ ["getting confirmation"])%list ∧
  awaiting (run (onSave props Err) o).2
  = Some {| message := "Workflow has invalid connections. You can save the workflow, but it may not run correctly.";
            dialog_id := "save-workflow-confirmation";
            okTitle := "Save Workflow" |} ∧
  ∀ e o', resume (run (onSave props Err) o).2 (inr e) o' = (o', Rejected e).
Proof. unfold onSave. intros ->. by split_and!. Qed.

Lemma onSave_dialog_witness :
  hasInvalidConnections edited_workflow = true ∧
  console (run (onSave edited_workflow unit) nothing_sent).1 = ["getting confirmation"] ∧
  resume (run (onSave edited_workflow unit) nothing_sent).2 (inr tt) nothing_sent
  = (nothing_sent, Rejected tt).
Proof.
  assert (H : hasInvalidConnections edited_workflow = true) by reflexivity.
  destruct (onSave_dialog edited_workflow unit nothing_sent H) as (Hc & _ & Hr).
  split; [exact H|]. split; [exact Hc | apply Hr].
Defined.

End ToolbarBehaviour.

(* ===================================================================== *)
(** * Calls that await more than once *)
(* ===================================================================== *)

Module Schedule.

Section Schedule.
Context {St Req Resp Err A : Type}.

(** A suspended call goes on through the turns of a schedule: in each turn the
    rest of the page has done [turn.1] to the state and the awaited promise
    settles with [turn.2].  Turns that come after the call is through are not
    looked at. *)
Fixpoint settle_all (o : outcome St Req Resp Err A) (s : St)
    (turns : list ((St → St) * (Resp + Err))) : St * outcome St Req Resp Err A :=
  match turns with
  | [] => (s, o)
  | turn :: turns' =>
      match o with
      | Pending _ k =>
          let '(s', o') := run (k turn.2) (turn.1 s) in
          settle_all o' s' turns'
      | _ => (s, o)
      end
  end.

(** The requests the call makes on the way, in their order. *)
Fixpoint requests (o : outcome St Req Resp Err A) (s : St)
    (turns : list ((St → St) * (Resp + Err))) : list Req :=
  match o with
  | Pending r k =>
      r :: match turns with
           | [] => []
           | turn :: turns' =>
               let '(s', o') := run (k turn.2) (turn.1 s) in
               requests o' s' turns'
           end
  | _ => []
  end.

(** A call that is through stays as it is. *)
Lemma settle_all_Fulfilled a s turns : settle_all (Fulfilled a) s turns = (s, Fulfilled a).
Proof. by destruct turns. Qed.

Lemma settle_all_Rejected e s turns : settle_all (Rejected e) s turns = (s, Rejected e).
Proof. by destruct turns. Qed.

End Schedule.

End Schedule.

(* ===================================================================== *)
(** * The tool panel ([ToolPanel.vue]) *)
(* ===================================================================== *)

Module ToolPanel.
Import Schedule.

Section Panel.
(** A panel view of the answer of [api/tool_panels]. *)
Variable View : Type.
(** The type of a rejection reason. *)
Variable Err : Type.
(** [getAppRoot()]. *)
Variable getAppRoot : string.

(** The [data] of the answer of [api/tool_panels]. *)
Record PanelData : Type := {
  default_panel_view : string;
  views : gmap string View;
}.

(** The refs of the component, and what it has written with
    [console.error]: the error, after the label if there is one. *)
Record Panel : Type := {
  arePanelsFetched : bool;
  defaultPanelView : string;
  query : string;
  panelViews : option (gmap string View);
  showAdvanced : bool;
  console : list (option string * Err);
}.

(** The refs as [setup] makes them. *)
Definition setup : Panel :=
  {| arePanelsFetched := false; defaultPanelView := ""; query := "";
     panelViews := None; showAdvanced := false; console := [] |}.

Definition set_arePanelsFetched (v : bool) (p : Panel) : Panel :=
  {| arePanelsFetched := v; defaultPanelView := defaultPanelView p; query := query p;
     panelViews := panelViews p; showAdvanced := showAdvanced p; console := console p |}.
Definition set_defaultPanelView (v : string) (p : Panel) : Panel :=
  {| arePanelsFetched := arePanelsFetched p; defaultPanelView := v; query := query p;
     panelViews := panelViews p; showAdvanced := showAdvanced p; console := console p |}.
Definition set_query (v : string) (p : Panel) : Panel :=
  {| arePanelsFetched := arePanelsFetched p; defaultPanelView := defaultPanelView p;
     query := v; panelViews := panelViews p; showAdvanced := showAdvanced p;
     console := console p |}.
Definition set_panelViews (v : option (gmap string View)) (p : Panel) : Panel :=
  {| arePanelsFetched := arePanelsFetched p; defaultPanelView := defaultPanelView p;
     query := query p; panelViews := v; showAdvanced := showAdvanced p;
     console := console p |}.
Definition console_error (label : option string) (error : Err) (p : Panel) : Panel :=
  {| arePanelsFetched := arePanelsFetched p; defaultPanelView := defaultPanelView p;
     query := query p; panelViews := panelViews p; showAdvanced := showAdvanced p;
     console := (console p ++ [(label, error)])%list |}.

(** What the component awaits: the answer of [api/tool_panels] and the
    actions of the tool store. *)
Inductive Request : Type :=
| GetToolPanels (url : string)
| FetchTools
| InitCurrentPanelView (panelView : string)
| SetCurrentPanelView (panelView : string).

(** An awaited promise resolves to a [PanelData]; the component looks at the
    value only after [GetToolPanels], what the actions of the store resolve to
    it throws away. *)
Abbreviation task := (async Panel Request PanelData Err unit).

(** [async initializeTools()]. *)
Definition initializeTools : task :=
  try_catch
    (await FetchTools ;;
     this ← Get Ret ;
     await (InitCurrentPanelView (defaultPanelView this)) ;;
     Ret tt)
    (λ error, modify (console_error (Some "ToolPanel - Intialize error:") error)).

(** The hook of [onMounted]. *)
Definition onMounted : task :=
  finally
    (try_catch
       (data ← await (GetToolPanels (getAppRoot +:+ "api/tool_panels")) ;
        modify (set_defaultPanelView (default_panel_view data)) ;;
        modify (set_panelViews (Some (views data))) ;;
        initializeTools)
       (λ error, modify (console_error None error)))
    (modify (set_arePanelsFetched true)).

(** The first watcher of [currentPanelView]. *)
Definition watch_reset_query : task := modify (set_query "").

(** The second watcher of [currentPanelView]; [newVal] is falsy when it is
    [null], [undefined] or the empty string. *)
Definition watch_initialize (newVal : option string) : task :=
  this ← Get Ret ;
  if (bool_decide (newVal = None) || bool_decide (newVal = Some "")) && arePanelsFetched this
  then initializeTools else Ret tt.

(** [async updatePanelView(panelView)]. *)
Definition updatePanelView (panelView : string) : task :=
  await (SetCurrentPanelView panelView) ;; Ret tt.

(** [v-if] of [PanelViewButton]: there are panel views, more than one. *)
Definition shows_PanelViewButton (p : Panel) : bool :=
  match panelViews p with
  | Some vs => bool_decide (1 < size vs)%nat
  | None => false
  end.

(** ** Properties *)

(** X15. However the three promises that [onMounted] may await settle, and
    whatever the rest of the page does to the component meanwhile, the
    hook comes to an end, its promise is fulfilled, never rejected, and
    [arePanelsFetched] is set: the panel leaves its loading state also when
    the server fails. *)
Theorem onMounted_always_fetched p turn1 turn2 turn3 turns :
  let final := settle_all (run onMounted p).2 (run onMounted p).1
                 (turn1 :: turn2 :: turn3 :: turns) in
  final.2 = Fulfilled tt ∧ arePanelsFetched final.1 = true.
Proof.
  destruct turn1 as [env1 [data1|e1]], turn2 as [env2 [data2|e2]],
    turn3 as [env3 [data3|e3]]; simpl; rewrite ?settle_all_Fulfilled; by split.
Qed.

(** X16. What [onMounted] asks for, nothing else touching the component.
    It first gets the tool panels.  If that fails it asks for nothing more and
    writes the error to the console.  Otherwise it keeps the default panel
    view and the views of the answer and has the store fetch the tools; only
    if that goes through it has the store set up the current panel view,
    with the default panel view of the answer. *)
Theorem onMounted_requests p data answer2 answer3 e e' :
  let start := run onMounted p in
  let get := GetToolPanels (getAppRoot +:+ "api/tool_panels") in
  let stay := λ p' : Panel, p' in
  (requests start.2 start.1 [(stay, inr e); (stay, inl answer2); (stay, inl answer3)]
   = [get] ∧
   settle_all start.2 start.1 [(stay, inr e)]
   = (set_arePanelsFetched true (console_error None e p), Fulfilled tt)) ∧
  (requests start.2 start.1 [(stay, inl data); (stay, inr e'); (stay, inl answer3)]
   = [get; FetchTools] ∧
   settle_all start.2 start.1 [(stay, inl data); (stay, inr e')]
   = (set_arePanelsFetched true
        (console_error (Some "ToolPanel - Intialize error:") e'
           (set_panelViews (Some (views data))
              (set_defaultPanelView (default_panel_view data) p))),
      Fulfilled tt)) ∧
  (requests start.2 start.1 [(stay, inl data); (stay, inl answer2); (stay, inl answer3)]
   = [get; FetchTools; InitCurrentPanelView (default_panel_view data)] ∧
   settle_all start.2 start.1 [(stay, inl data); (stay, inl answer2); (stay, inl answer3)]
   = (set_arePanelsFetched true
        (set_panelViews (Some (views data))
           (set_defaultPanelView (default_panel_view data) p)),
      Fulfilled tt)).
Proof. by split_and!. Qed.

(** X17. [initializeTools] never rejects: a failure of either action of the
    store ends up as one line on the console, and nothing else of the
    component changes.  When fetching the tools fails, the current panel
    view is not set up. *)
Theorem initializeTools_never_rejects p turn1 turn2 turns e answer :
  let start := run initializeTools p in
  let stay := λ p' : Panel, p' in
  (settle_all start.2 start.1 (turn1 :: turn2 :: turns)).2 = Fulfilled tt ∧
  (start.1 = p ∧ awaiting start.2 = Some FetchTools) ∧
  (requests start.2 start.1 [(stay, inr e); (stay, inl answer)] = [FetchTools] ∧
   settle_all start.2 start.1 [(stay, inr e)]
   = (console_error (Some "ToolPanel - Intialize error:") e p, Fulfilled tt)) ∧
  (settle_all start.2 start.1 [(stay, inl answer); (stay, inr e)]
   = (console_error (Some "ToolPanel - Intialize error:") e p, Fulfilled tt)) ∧
  (settle_all start.2 start.1 [(stay, inl answer); (stay, inl answer)]
   = (p, Fulfilled tt)).
Proof.
  destruct turn1 as [env1 [data1|e1]], turn2 as [env2 [data2|e2]]; simpl;
    rewrite ?settle_all_Fulfilled; by split_and!.
Qed.

(** X18. A current panel view that becomes empty sets off the initialization
    of the tools only once the panels have been fetched: not on a component
    that has just been set up, and always after [onMounted] has come to its
    end, whichever way. *)
Theorem watch_initialize_after_mount p newVal turn1 turn2 turn3 turns :
  let mounted := (settle_all (run onMounted setup).2 (run onMounted setup).1
                    (turn1 :: turn2 :: turn3 :: turns)).1 in
  run (watch_initialize newVal) setup = (setup, Fulfilled tt) ∧
  awaiting (run (watch_initialize None) mounted).2 = Some FetchTools ∧
  awaiting (run (watch_initialize (Some "")) mounted).2 = Some FetchTools ∧
  (newVal ≠ None → newVal ≠ Some "" →
   run (watch_initialize newVal) p = (p, Fulfilled tt)) ∧
  query (run watch_reset_query p).1 = "".
Proof.
  split_and!.
  - unfold watch_initialize. simpl. by rewrite andb_false_r.
  - destruct turn1 as [env1 [data1|e1]], turn2 as [env2 [data2|e2]],
      turn3 as [env3 [data3|e3]]; simpl; rewrite ?settle_all_Fulfilled; reflexivity.
  - destruct turn1 as [env1 [data1|e1]], turn2 as [env2 [data2|e2]],
      turn3 as [env3 [data3|e3]]; simpl; rewrite ?settle_all_Fulfilled; reflexivity.
  - intros H1 H2. unfold watch_initialize. simpl.
    by rewrite !bool_decide_eq_false_2.
  - reflexivity.
Qed.

End Panel.

End ToolPanel.

(* ===================================================================== *)
(** * The list of pages *)
(* ===================================================================== *)

Module PageList.

(** A page of the list: what the cells of the table and the methods of the
    component read. *)
Record Page : Type := {
  page_id : string;
  username : string;
  published : bool;
  shared : bool;
  importable : bool;
}.

(** [decorateData(page)]; [current_user] is the user name of the Galaxy
    instance. *)
Definition decorateData (current_user : string) (page : Page) : Page :=
  {| page_id := page_id page; username := username page;
     published := published page;
     shared := bool_decide (username page ≠ current_user);
     importable := importable page |}.

(** The sharing cell: [v-if] of the span with the sharing indicators and
    [v-if] of the link "Share this". *)
Definition shows_indicators (item : Page) : bool :=
  published item || shared item || importable item.
Definition shows_share_link (item : Page) : bool :=
  negb (published item) && negb (shared item) && negb (importable item).

(** X20. The sharing cell of a page shows either the sharing indicators or
    the link "Share this", never both and never neither.  Once
    [decorateData] has gone over the page, the link shows exactly on a page of
    the user that is neither published nor importable. *)
Theorem sharing_cell current_user item :
  shows_share_link item = negb (shows_indicators item) ∧
  (shows_share_link (decorateData current_user item) = true ↔
   username item = current_user ∧ published item = false ∧ importable item = false).
Proof.
  unfold shows_share_link, shows_indicators, decorateData. simpl. split.
  - by destruct (published item), (shared item), (importable item).
  - rewrite !andb_true_iff, !negb_true_iff, bool_decide_eq_false. split.
    + intros [[Hp Hu] Hi]. split_and!; [|done..]. by apply dec_stable.
    + intros (Hu & Hp & Hi). split_and!; [done| |done]. intros Hne. by apply Hne.
Qed.

End PageList.
